(** * Screenshot-before-action proxy and OCR annotation loop of [main.py]

    A shallow embedding of [ScreenshotDriver], [WrappedElement] and the
    annotation loop of [main], and the properties of the specification that
    were checked against them.

    Conventions of the embedding.
    - A Python [str] is a [string]; one [ascii] stands for one code point
      below 256 (the Latin-1 range), classified as Python's [str.isalnum]
      classifies it.
    - [Optional[str]] is [option string]; Python truthiness of such a value
      ([if label:], [label or default]) is written out: [None] and the empty
      string are both false.
    - A method that mutates [self] and talks to the wrapped session is a
      function [St -> Res A * St]: the state that was reached is kept when an
      exception is raised, as in Python.
    - The wrapped WebDriver, its elements and the clock are collaborators:
      they are a record of operations over an abstract world.
    - The numbers of a bounding box are rationals, which covers integers
      and finite floats; [int] truncates toward zero.
    - For the annotation loop the files are a finite map from path strings
      to images, an image being the picture read plus the marks drawn on
      it; the reader is a function of the path. *)

From Stdlib Require Import String Ascii List ZArith NArith QArith Lia.
From stdpp Require Import base strings pretty list gmap.

Local Open Scope string_scope.
Local Open Scope nat_scope.

(* ===================================================================== *)
(** * Python strings *)
(* ===================================================================== *)

Module PyStr.

(** [str.isalnum] on one code point below 256: letters, decimal digits and
    the other numeric characters of Latin-1. *)
Definition isalnum (c : ascii) : bool :=
  let n := nat_of_ascii c in
  ((48 <=? n) && (n <=? 57))          (* 0-9 *)
  || ((65 <=? n) && (n <=? 90))       (* A-Z *)
  || ((97 <=? n) && (n <=? 122))      (* a-z *)
  || (n =? 170) || (n =? 181) || (n =? 186)          (* letters *)
  || (n =? 178) || (n =? 179) || (n =? 185)          (* superscript digits *)
  || ((188 <=? n) && (n <=? 190))                    (* vulgar fractions *)
  || ((192 <=? n) && (n <=? 214))
  || ((216 <=? n) && (n <=? 246))
  || (248 <=? n).

(** [o or default] where [default] is a string. *)
Definition or_else (o : option string) (default : string) : string :=
  match o with
  | Some (String c s) => String c s
  | _ => default
  end.

(** ["".join(f(c) for c in s)] with [f] returning one character. *)
Fixpoint map_chars (f : ascii -> ascii) (s : string) : string :=
  match s with
  | EmptyString => EmptyString
  | String c s' => String (f c) (map_chars f s')
  end.

(** [s[:-k]] *)
Definition drop_last (k : nat) (s : string) : string :=
  substring 0 (String.length s - k) s.

(** ["0" * k] *)
Fixpoint zeros (k : nat) : string :=
  match k with
  | O => EmptyString
  | S k' => String "0" (zeros k')
  end.

(** [format(n, "0{w}d")] for a natural number: decimal digits, padded with
    zeros on the left up to width [w], never truncated. *)
Definition format_d (w : nat) (n : N) : string :=
  let s := pretty n in
  zeros (w - String.length s) +:+ s.

Definition is_digit (c : ascii) : bool :=
  let n := nat_of_ascii c in (48 <=? n) && (n <=? 57).

Definition digit_val (c : ascii) : N := N.of_nat (nat_of_ascii c - 48).

(** Value of the leading run of decimal digits of [s], continuing [acc]. *)
Fixpoint leading_digits (s : string) (acc : N) : N :=
  match s with
  | EmptyString => acc
  | String c s' =>
      if is_digit c then leading_digits s' (10 * acc + digit_val c)%N
      else acc
  end.

(** [every p s]: all characters of [s] satisfy [p]. *)
Fixpoint every (p : ascii -> bool) (s : string) : bool :=
  match s with
  | EmptyString => true
  | String c s' => p c && every p s'
  end.

(** The [w] low decimal digits of [n], most significant first. *)
Fixpoint fixed_digits (w : nat) (n : N) : string :=
  match w with
  | O => EmptyString
  | S w' =>
      fixed_digits w' (n / 10)%N
      +:+ String (pretty_N_char (n mod 10)%N) EmptyString
  end.

(** The first character of [s] is a decimal digit. *)
Definition head_is_digit (s : string) : bool :=
  match s with
  | String c _ => is_digit c
  | EmptyString => false
  end.

End PyStr.

(* ===================================================================== *)
(** * Paths and timestamps *)
(* ===================================================================== *)

(** A [pathlib.Path] with a final component: the directory part and the
    name.  [out_dir / name] is used with names that hold no separator, and
    [with_name] replaces the final component. *)
Record Path := mkPath { parent : string; name : string }.

Definition path_div (dir : string) (nm : string) : Path :=
  {| parent := dir; name := nm |}.

Definition with_name (p : Path) (nm : string) : Path :=
  {| parent := parent p; name := nm |}.

(** [str(path)] *)
Definition path_str (p : Path) : string :=
  parent p +:+ "/" +:+ name p.

(** The fields of a [datetime] that [strftime] prints. *)
Record DateTime := mkDateTime {
  year : N; month : N; day : N;
  hour : N; minute : N; second : N;
  microsecond : N
}.

(** [dt.strftime("%Y%m%d_%H%M%S_%f")] *)
Definition strftime (dt : DateTime) : string :=
  PyStr.format_d 4 (year dt) +:+ PyStr.format_d 2 (month dt)
  +:+ PyStr.format_d 2 (day dt) +:+ "_"
  +:+ PyStr.format_d 2 (hour dt) +:+ PyStr.format_d 2 (minute dt)
  +:+ PyStr.format_d 2 (second dt) +:+ "_"
  +:+ PyStr.format_d 6 (microsecond dt).

(** [datetime.now().strftime("%Y%m%d_%H%M%S_%f")[:-3]] given the reading. *)
Definition timestamp (dt : DateTime) : string :=
  PyStr.drop_last 3 (strftime dt).

(** The timestamp down to the second, with its closing underscore. *)
Definition to_the_second (dt : DateTime) : string :=
  PyStr.format_d 4 (year dt) +:+ PyStr.format_d 2 (month dt)
  +:+ PyStr.format_d 2 (day dt) +:+ "_"
  +:+ PyStr.format_d 2 (hour dt) +:+ PyStr.format_d 2 (minute dt)
  +:+ PyStr.format_d 2 (second dt) +:+ "_".

(* ===================================================================== *)
(** * Results, logging and the state monad of the methods *)
(* ===================================================================== *)

(** Outcome of a Python call: a value, or a raised exception. *)
Inductive Res (E A : Type) : Type :=
| Ok (a : A)
| Raise (e : E).
Arguments Ok {E A} a.
Arguments Raise {E A} e.

Definition is_ok {E A} (r : Res E A) : bool :=
  match r with Ok _ => true | Raise _ => false end.

Inductive Level := INFO | ERROR.

(** One call of [logging.info] or [logging.error]: level and message. *)
Record LogRecord := mkLog { level : Level; message : string }.

Module Eff.
Section Monad.
Context {S E : Type}.

Definition M (A : Type) : Type := S -> Res E A * S.

Definition ret {A} (a : A) : M A := fun s => (Ok a, s).

(** Sequencing: an exception of the first part ends the whole, in the
    state it was raised in. *)
Definition bind {A B} (m : M A) (k : A -> M B) : M B :=
  fun s =>
    match m s with
    | (Ok a, s') => k a s'
    | (Raise e, s') => (Raise e, s')
    end.

Definition gets {A} (f : S -> A) : M A := fun s => (Ok (f s), s).
Definition modify (f : S -> S) : M unit := fun s => (Ok tt, f s).
End Monad.
End Eff.

Declare Scope eff_scope.
Delimit Scope eff_scope with eff.
Notation "x <- m ;; k" := (Eff.bind m (fun x => k))
  (at level 100, m at next level, right associativity) : eff_scope.
Notation "m ;;; k" := (Eff.bind m (fun _ => k))
  (at level 100, right associativity) : eff_scope.
Local Open Scope eff_scope.

(* ===================================================================== *)
(** * The wrapped session *)
(* ===================================================================== *)

(** What the proxy asks of the WebDriver it wraps, of the elements the
    WebDriver returns, of the directory and of the clock.  Each operation may
    change the world and may raise. *)
Record Remote (World Elem Value Args Exn : Type) := mkRemote {
  (* datetime.now() *)
  now : World -> DateTime * World;
  (* Path.mkdir(parents=True, exist_ok=True) *)
  mkdir : string -> World -> Res Exn unit * World;
  (* driver.save_screenshot(filename) *)
  save_screenshot : string -> World -> Res Exn Value * World;
  (* driver.get(url) *)
  driver_get : string -> World -> Res Exn Value * World;
  (* driver.find_elementwith the positional and keyword arguments *)
  driver_find_element : Args -> World -> Res Exn Elem * World;
  (* driver.find_elementswith the positional and keyword arguments *)
  driver_find_elements : Args -> World -> Res Exn (list Elem) * World;
  (* driver.implicitly_wait(seconds) *)
  driver_implicitly_wait : Q -> World -> Res Exn Value * World;
  (* driver.quit() *)
  driver_quit : World -> Res Exn Value * World;
  (* getattr(driver, item) *)
  driver_getattr : string -> World -> Res Exn Value * World;
  (* element.click() *)
  element_click : Elem -> World -> Res Exn Value * World;
  (* element.send_keys with the keys *)
  element_send_keys : Elem -> list string -> World -> Res Exn Value * World;
  (* element.submit() *)
  element_submit : Elem -> World -> Res Exn Value * World;
  (* getattr(element, item) *)
  element_getattr : Elem -> string -> World -> Res Exn Value * World
}.

Arguments now {World Elem Value Args Exn} _.
Arguments mkdir {World Elem Value Args Exn} _.
Arguments save_screenshot {World Elem Value Args Exn} _.
Arguments driver_get {World Elem Value Args Exn} _.
Arguments driver_find_element {World Elem Value Args Exn} _.
Arguments driver_find_elements {World Elem Value Args Exn} _.
Arguments driver_implicitly_wait {World Elem Value Args Exn} _.
Arguments driver_quit {World Elem Value Args Exn} _.
Arguments driver_getattr {World Elem Value Args Exn} _.
Arguments element_click {World Elem Value Args Exn} _.
Arguments element_send_keys {World Elem Value Args Exn} _.
Arguments element_submit {World Elem Value Args Exn} _.
Arguments element_getattr {World Elem Value Args Exn} _.

(** The attributes of a [ScreenshotDriver] besides the wrapped driver. *)
Record SDriver := mkSDriver {
  out_dir : string;
  _counter : nat;
  history : list Path
}.

(** A [WrappedElement]: the element and the label it was found under.  Its
    [_sdriver] is the one [ScreenshotDriver] of the state: every wrapped
    element shares it. *)
Record WrappedElement (Elem : Type) := mkWrapped {
  _element : Elem;
  _label : option string
}.
Arguments mkWrapped {Elem} _ _.
Arguments _element {Elem} _.
Arguments _label {Elem} _.

(** State of a run: the proxy object, the world of the wrapped session and
    the records logged so far. *)
Record St (World : Type) := mkSt {
  self : SDriver;
  world : World;
  logs : list LogRecord
}.
Arguments mkSt {World} _ _ _.
Arguments self {World} _.
Arguments world {World} _.
Arguments logs {World} _.

(* ===================================================================== *)
(** * [ScreenshotDriver] and [WrappedElement] *)
(* ===================================================================== *)

Section Proxy.
Context {World Elem Value Args Exn : Type}.
Variable R : Remote World Elem Value Args Exn.

Local Abbreviation State := (St World).
Local Abbreviation M := (@Eff.M State Exn).

(** A call on a collaborator, run on the world of the state. *)
Definition call {A} (f : World -> Res Exn A * World) : M A :=
  fun s =>
    let (r, w) := f (world s) in
    (r, mkSt (self s) w (logs s)).

Definition set_self (f : SDriver -> SDriver) : M unit :=
  Eff.modify (fun s => mkSt (f (self s)) (world s) (logs s)).

(** [logging.info(...)] *)
Definition logging_info (msg : string) : M unit :=
  Eff.modify (fun s => mkSt (self s) (world s) (logs s ++ [mkLog INFO msg])).

(** The character kept or replaced by the sanitising comprehension. *)
Definition sanitize_char (c : ascii) : ascii :=
  if PyStr.isalnum c || Ascii.eqb c "-" || Ascii.eqb c "_" then c
  else "_"%char.

Definition sanitize (label : string) : string :=
  PyStr.map_chars sanitize_char label.

(** [ScreenshotDriver.__init__]: the directory is created first; on
    failure no proxy exists. *)
Definition __init__ (dir : string) (w : World) : Res Exn State :=
  match mkdir R dir w with
  | (Ok _, w') => Ok (mkSt (mkSDriver dir 0 []) w' [])
  | (Raise e, _) => Raise e
  end.

(** [ScreenshotDriver._next_name] *)
Definition _next_name (label : option string) : M Path :=
  set_self (fun d => mkSDriver (out_dir d) (S (_counter d)) (history d)) ;;;
  dt <- call (fun w => let (t, w') := now R w in (Ok t, w')) ;;
  let ts := timestamp dt in
  let label :=
    match label with
    | Some (String c l) => sanitize (String c l)
    | _ => "action"
    end in
  d <- Eff.gets self ;;
  let name :=
    PyStr.format_d 4 (N.of_nat (_counter d)) +:+ "_" +:+ ts +:+ "_"
    +:+ label +:+ ".png" in
  Eff.ret (path_div (out_dir d) name).

(** [ScreenshotDriver.screenshot] *)
Definition screenshot (label : option string) : M Path :=
  path <- _next_name label ;;
  call (save_screenshot R (path_str path)) ;;;
  logging_info ("Saved screenshot: " +:+ path_str path) ;;;
  set_self (fun d =>
    mkSDriver (out_dir d) (_counter d) (history d ++ [path])) ;;;
  Eff.ret path.

(** [ScreenshotDriver.get] *)
Definition get (url : string) : M Value :=
  screenshot (Some ("before_get_" +:+ url)) ;;;
  call (driver_get R url).

(** [ScreenshotDriver.find_element] *)
Definition find_element (args : Args) (label : option string)
  : M (WrappedElement Elem) :=
  screenshot (Some (PyStr.or_else label "before_find_element")) ;;;
  el <- call (driver_find_element R args) ;;
  Eff.ret (mkWrapped el label).

(** [ScreenshotDriver.find_elements] *)
Definition find_elements (args : Args) (label : option string)
  : M (list (WrappedElement Elem)) :=
  screenshot (Some (PyStr.or_else label "before_find_elements")) ;;;
  els <- call (driver_find_elements R args) ;;
  Eff.ret (map (fun e => mkWrapped e label) els).

(** [ScreenshotDriver.implicitly_wait] *)
Definition implicitly_wait (seconds : Q) : M Value :=
  call (driver_implicitly_wait R seconds).

(** [ScreenshotDriver.quit] *)
Definition quit : M Value :=
  screenshot (Some "before_quit") ;;;
  call (driver_quit R).

(** [ScreenshotDriver.__getattr__]: Python calls it for the names that
    the proxy does not define itself. *)
Definition __getattr__ (item : string) : M Value :=
  call (driver_getattr R item).

(** [WrappedElement.click] *)
Definition click (we : WrappedElement Elem) : M Value :=
  screenshot (Some (PyStr.or_else (_label we) "before_click")) ;;;
  call (element_click R (_element we)).

(** [WrappedElement.send_keys]; the keys are strings, so [str] leaves
    them as they are. *)
Definition send_keys (we : WrappedElement Elem) (keys : list string)
  : M Value :=
  screenshot
    (Some (PyStr.or_else (_label we)
             ("before_send_keys_" +:+ String.concat "_" keys))) ;;;
  call (element_send_keys R (_element we) keys).

(** [WrappedElement.submit] *)
Definition submit (we : WrappedElement Elem) : M Value :=
  screenshot (Some (PyStr.or_else (_label we) "before_submit")) ;;;
  call (element_submit R (_element we)).

(** [WrappedElement.__getattr__] *)
Definition element__getattr__ (we : WrappedElement Elem) (item : string)
  : M Value :=
  call (element_getattr R (_element we) item).

End Proxy.

(* ===================================================================== *)
(** * The annotation loop of [main] *)
(* ===================================================================== *)

Module Cv2.

Definition Point : Type := Z * Z.
Definition Color : Type := Z * Z * Z.

Inductive Font := FONT_HERSHEY_SIMPLEX.

(** What [cv2.rectangle] and [cv2.putText] are asked to draw. *)
Inductive Mark :=
| Rectangle (pt1 pt2 : Point) (color : Color) (thickness : Z)
| PutText (text : string) (org : Point) (font : Font) (scale : Q)
    (color : Color) (thickness : Z).

(** A decoded image: the picture that was read, and what was drawn on it
    since, oldest first. *)
Record Image := mkImage { picture : string; marks : list Mark }.

(** [cv2.rectangle(img, pt1, pt2, color, thickness)] *)
Definition rectangle (img : Image) (pt1 pt2 : Point) (color : Color)
  (thickness : Z) : Image :=
  mkImage (picture img) (marks img ++ [Rectangle pt1 pt2 color thickness]).

(** [cv2.putText(img, text, org, font, scale, color, thickness)] *)
Definition putText (img : Image) (text : string) (org : Point) (font : Font)
  (scale : Q) (color : Color) (thickness : Z) : Image :=
  mkImage (picture img)
    (marks img ++ [PutText text org font scale color thickness]).

End Cv2.

(** A number of a bounding box: an integer or a finite float, both
    rationals. *)
Definition Num : Type := Q.

(** [int(x)]: truncation toward zero. *)
Definition py_int (x : Num) : Z := Z.quot (Qnum x) (Z.pos (Qden x)).

(** One item of [reader.readtext]: the four corners, the text and the
    confidence. *)
Record Detection := mkDetection {
  bbox : (Num * Num) * (Num * Num) * (Num * Num) * (Num * Num);
  text : string;
  prob : Num
}.

(** [bbox[0]] and [bbox[2]] *)
Definition bbox0 (d : Detection) : Num * Num :=
  let '(c0, _, _, _) := bbox d in c0.
Definition bbox2 (d : Detection) : Num * Num :=
  let '(_, _, c2, _) := bbox d in c2.

(** The files that hold a readable image, by path string, and the calls of
    [cv2.imwrite] received so far. *)
Record Disk := mkDisk {
  files : gmap string Cv2.Image;
  written : list (string * Cv2.Image)
}.

Record AState := mkAState { disk : Disk; alogs : list LogRecord }.

Section Annotate.
Context {Exn : Type}.

(** [reader.readtext(path)]: the detections for the image at a path, or the
    exception the reader raises. *)
Variable readtext : string -> Res Exn (list Detection).

Local Abbreviation M := (@Eff.M AState Exn).

Definition logging (lv : Level) (msg : string) : M unit :=
  Eff.modify (fun s => mkAState (disk s) (alogs s ++ [mkLog lv msg])).

(** [cv2.imread(path)]: [None] when the file is missing or unreadable. *)
Definition imread (path : string) : M (option Cv2.Image) :=
  Eff.gets (fun s => files (disk s) !! path).

(** [cv2.imwrite(path, img)] *)
Definition imwrite (path : string) (img : Cv2.Image) : M unit :=
  Eff.modify (fun s =>
    mkAState
      (mkDisk (<[path := img]> (files (disk s)))
              (written (disk s) ++ [(path, img)]))
      (alogs s)).

(** Body of [for bbox, text, prob in results]. *)
Definition draw_detection (img : Cv2.Image) (d : Detection) : Cv2.Image :=
  let tl := (py_int (fst (bbox0 d)), py_int (snd (bbox0 d))) in
  let br := (py_int (fst (bbox2 d)), py_int (snd (bbox2 d))) in
  let img := Cv2.rectangle img tl br (0, 255, 0)%Z 2%Z in
  Cv2.putText img (text d) (fst tl, (snd tl - 10)%Z)
    Cv2.FONT_HERSHEY_SIMPLEX (6 # 10)%Q (0, 255, 0)%Z 2%Z.

Definition draw_detections (img : Cv2.Image) (results : list Detection)
  : Cv2.Image :=
  fold_left draw_detection results img.

(** [img_path.with_name(f"annotated_{img_path.name}")] *)
Definition annotated_path (img_path : Path) : Path :=
  with_name img_path ("annotated_" +:+ name img_path).

(** Body of [for img_path in driver.history]. *)
Definition annotate_one (img_path : Path) : M unit :=
  logging INFO ("Annotating " +:+ path_str img_path) ;;;
  img <- imread (path_str img_path) ;;
  match img with
  | None =>
      logging ERROR ("Could not read image " +:+ path_str img_path)
  | Some img =>
      results <- (fun s => (readtext (path_str img_path), s)) ;;
      let img := draw_detections img results in
      imwrite (path_str (annotated_path img_path)) img ;;;
      logging INFO
        ("Saved annotated screenshot: "
         +:+ path_str (annotated_path img_path))
  end.

(** The loop over [driver.history]. *)
Fixpoint annotate (history : list Path) : M unit :=
  match history with
  | [] => Eff.ret tt
  | img_path :: rest => annotate_one img_path ;;; annotate rest
  end.

End Annotate.

(** What is drawn for one detection. *)
Definition placement (d : Detection) : list Cv2.Mark :=
  let tl := (py_int (fst (bbox0 d)), py_int (snd (bbox0 d))) in
  let br := (py_int (fst (bbox2 d)), py_int (snd (bbox2 d))) in
  [ Cv2.Rectangle tl br (0, 255, 0)%Z 2%Z;
    Cv2.PutText (text d) (fst tl, (snd tl - 10)%Z)
      Cv2.FONT_HERSHEY_SIMPLEX (6 # 10)%Q (0, 255, 0)%Z 2%Z ].

(** A drawn corner lies at a corner point of the detection. *)
Definition at_point (pt : Cv2.Point) (c : Num * Num) : Prop :=
  (inject_Z (fst pt) == fst c)%Q /\ (inject_Z (snd pt) == snd c)%Q.

(** The rectangle that [cv2.rectangle] draws has [pt1] and [pt2] as
    opposite corners; ordinates grow downward.  Its top-left and
    bottom-right corners, and a point above its top edge. *)
Definition top_left (pt1 pt2 : Cv2.Point) : Cv2.Point :=
  (Z.min (fst pt1) (fst pt2), Z.min (snd pt1) (snd pt2)).
Definition bottom_right (pt1 pt2 : Cv2.Point) : Cv2.Point :=
  (Z.max (fst pt1) (fst pt2), Z.max (snd pt1) (snd pt2)).
Definition above_top_edge (org pt1 pt2 : Cv2.Point) : Prop :=
  (snd org < snd (top_left pt1 pt2))%Z.

(** The image of a snapshot can be read. *)
Definition loaded (fs : gmap string Cv2.Image) (p : Path) : bool :=
  match fs !! path_str p with
  | Some _ => true
  | None => false
  end.

Definition is_error (r : LogRecord) : bool :=
  match level r with ERROR => true | INFO => false end.

Definition store (m : gmap string Cv2.Image) (kv : string * Cv2.Image)
  : gmap string Cv2.Image :=
  <[fst kv := snd kv]> m.

(** Later snapshots are not overwritten by the annotation of earlier ones:
    no snapshot of the history has the path of an annotated image. *)
Definition sources_kept (h : list Path) : Prop :=
  forall p q, In p h -> In q h -> path_str (annotated_path q) <> path_str p.

(** The snapshots of a proxy: all in its directory, under names that start
    with a digit. *)
Definition proxy_named (dir : string) (h : list Path) : Prop :=
  Forall (fun p => parent p = dir /\ PyStr.head_is_digit (name p) = true) h.

Section AnnotateSpec.
Context {Exn : Type}.
Variable readtext : string -> Res Exn (list Detection).

(** The annotated images of a history, given the files: one for each
    snapshot that can be read, in order. *)
Definition outputs (fs : gmap string Cv2.Image) (h : list Path)
  : list (string * Cv2.Image) :=
  flat_map
    (fun p =>
       match fs !! path_str p, readtext (path_str p) with
       | Some img, Ok ds =>
           [(path_str (annotated_path p), draw_detections img ds)]
       | _, _ => []
       end) h.

(** The records logged for a history, given the files. *)
Definition records (fs : gmap string Cv2.Image) (h : list Path)
  : list LogRecord :=
  flat_map
    (fun p =>
       mkLog INFO ("Annotating " +:+ path_str p)
       :: (if loaded fs p
           then [mkLog INFO ("Saved annotated screenshot: "
                             +:+ path_str (annotated_path p))]
           else [mkLog ERROR ("Could not read image " +:+ path_str p)]))
    h.

(** Every snapshot that can be read gets its detections. *)
Definition detects (fs : gmap string Cv2.Image) (h : list Path) : Prop :=
  forall p, In p h -> loaded fs p = true ->
            is_ok (readtext (path_str p)) = true.

End AnnotateSpec.

(** The last image stored under a key by a list of writes. *)
Fixpoint last_write (k : string) (outs : list (string * Cv2.Image))
  : option Cv2.Image :=
  match outs with
  | [] => None
  | kv :: rest =>
      match last_write k rest with
      | Some v => Some v
      | None => if decide (fst kv = k) then Some (snd kv) else None
      end
  end.

(* ===================================================================== *)
(** * A scripted session, to run the proxy on *)
(* ===================================================================== *)

Module Mock.

(** A session whose failures are scripted: the next [save_screenshot]
    raises when the head of [shot_faults] is [true], the next delegated
    call raises when the head of [call_faults] is.  [received] lists what
    the session was asked, and [clock] counts microseconds since midnight. *)
Record World := mkWorld {
  clock : N;
  shot_faults : list bool;
  call_faults : list bool;
  received : list string
}.

Definition read_clock (w : World) : DateTime * World :=
  let c := clock w in
  (mkDateTime 2026 11 3
     ((c / 3600000000) mod 24) ((c / 60000000) mod 60)
     ((c / 1000000) mod 60) (c mod 1000000),
   mkWorld (c + 250000) (shot_faults w) (call_faults w) (received w))%N.

Definition render (path : string) (w : World) : Res string bool * World :=
  match shot_faults w with
  | true :: fs =>
      (Raise "render failed",
       mkWorld (clock w) fs (call_faults w) (received w))
  | _ =>
      (Ok true,
       mkWorld (clock w) (tl (shot_faults w)) (call_faults w)
         (received w ++ ["save_screenshot " +:+ path]))
  end.

Definition serve {A} (what : string) (a : A) (w : World)
  : Res string A * World :=
  match call_faults w with
  | true :: fs =>
      (Raise ("failed: " +:+ what),
       mkWorld (clock w) (shot_faults w) fs (received w))
  | _ =>
      (Ok a,
       mkWorld (clock w) (shot_faults w) (tl (call_faults w))
         (received w ++ [what]))
  end.

(** Elements are named by their selector; every value returned is a
    boolean. *)
Definition remote : Remote World string bool string string :=
  {| now := read_clock;
     mkdir := fun dir w => (Ok tt, w);
     save_screenshot := render;
     driver_get := fun url => serve ("get " +:+ url) true;
     driver_find_element := fun sel => serve ("find_element " +:+ sel) sel;
     driver_find_elements :=
       fun sel =>
         serve ("find_elements " +:+ sel) [sel +:+ "[0]"; sel +:+ "[1]"];
     driver_implicitly_wait := fun _ => serve "implicitly_wait" true;
     driver_quit := serve "quit" true;
     driver_getattr := fun item => serve ("getattr " +:+ item) true;
     element_click := fun el => serve ("click " +:+ el) true;
     element_send_keys :=
       fun el keys =>
         serve ("send_keys " +:+ el +:+ " " +:+ String.concat "," keys) true;
     element_submit := fun el => serve ("submit " +:+ el) true;
     element_getattr :=
       fun el item => serve ("getattr " +:+ el +:+ "." +:+ item) true
  |}.

(** A session at 14:33:05.123456 with the given scripted failures. *)
Definition world0 (shots calls : list bool) : World :=
  mkWorld 52385123456 shots calls [].

(** The proxy right after [ScreenshotDriver(raw_driver)]. *)
Definition fresh (shots calls : list bool) : St World :=
  mkSt (mkSDriver "screenshots" 0 []) (world0 shots calls) [].

End Mock.

(* ===================================================================== *)
(** * Driving sequences *)
(* ===================================================================== *)

(** The sequence number that a snapshot name starts with, if it starts with
    a digit. *)
Definition sequence_number (p : Path) : option nat :=
  match name p with
  | String c _ =>
      if PyStr.is_digit c
      then Some (N.to_nat (PyStr.leading_digits (name p) 0))
      else None
  | EmptyString => None
  end.

(** The label part of a name, as [_next_name] derives it from the label it
    is given. *)
Definition label_segment (label : option string) : string :=
  match label with
  | Some (String c l) => sanitize (String c l)
  | _ => "action"
  end.

(** The name that [_next_name] builds from the incremented counter, the
    clock reading and the label. *)
Definition artifact_name (sequence : nat) (dt : DateTime)
  (label : option string) : string :=
  PyStr.format_d 4 (N.of_nat sequence) +:+ "_" +:+ timestamp dt +:+ "_"
  +:+ label_segment label +:+ ".png".

(** The characters allowed in the label part of a name. *)
Definition safe_char (c : ascii) : bool :=
  PyStr.isalnum c || Ascii.eqb c "-" || Ascii.eqb c "_".

Module Spec.

(** The Artifact Namer in the words of the specification: the label is
    sanitised when it is present, and the fallback is used when it is
    absent. *)
Definition name (sequence : nat) (dt : DateTime) (label : option string)
  : string :=
  PyStr.format_d 4 (N.of_nat sequence) +:+ "_" +:+ timestamp dt +:+ "_"
  +:+ match label with
      | Some l => sanitize l
      | None => "action"
      end
  +:+ ".png".

End Spec.

Section Driving.
Context {World Elem Value Args Exn : Type}.
Variable R : Remote World Elem Value Args Exn.

Local Abbreviation State := (St World).
Local Abbreviation M := (@Eff.M State Exn).

(** A call that a driving routine issues on the proxy or on a wrapped
    element it holds. *)
Inductive Call :=
| CGet (url : string)
| CFindElement (args : Args) (label : option string)
| CFindElements (args : Args) (label : option string)
| CQuit
| CClick (we : WrappedElement Elem)
| CSendKeys (we : WrappedElement Elem) (keys : list string)
| CSubmit (we : WrappedElement Elem)
| CImplicitlyWait (seconds : Q)
| CGetattr (item : string)
| CElementGetattr (we : WrappedElement Elem) (item : string).

(** What a call hands back to the routine. *)
Inductive Returned :=
| RValue (v : Value)
| RElement (we : WrappedElement Elem)
| RElements (wes : list (WrappedElement Elem)).

Definition issue (c : Call) : M Returned :=
  match c with
  | CGet url => v <- get R url ;; Eff.ret (RValue v)
  | CFindElement args label =>
      we <- find_element R args label ;; Eff.ret (RElement we)
  | CFindElements args label =>
      wes <- find_elements R args label ;; Eff.ret (RElements wes)
  | CQuit => v <- quit R ;; Eff.ret (RValue v)
  | CClick we => v <- click R we ;; Eff.ret (RValue v)
  | CSendKeys we keys => v <- send_keys R we keys ;; Eff.ret (RValue v)
  | CSubmit we => v <- submit R we ;; Eff.ret (RValue v)
  | CImplicitlyWait seconds =>
      v <- implicitly_wait R seconds ;; Eff.ret (RValue v)
  | CGetattr item => v <- __getattr__ R item ;; Eff.ret (RValue v)
  | CElementGetattr we item =>
      v <- element__getattr__ R we item ;; Eff.ret (RValue v)
  end.

(** The calls that the session proxy intercepts, and those that the
    element proxy intercepts. *)
Definition session_intercepted (c : Call) : bool :=
  match c with
  | CGet _ | CFindElement _ _ | CFindElements _ _ | CQuit => true
  | _ => false
  end.

Definition element_intercepted (c : Call) : bool :=
  match c with
  | CClick _ | CSendKeys _ _ | CSubmit _ => true
  | _ => false
  end.

Definition intercepted (c : Call) : bool :=
  session_intercepted c || element_intercepted c.

(** The label policy of the intercepted calls. *)
Definition capture_label (c : Call) : option string :=
  match c with
  | CGet url => Some ("before_get_" +:+ url)
  | CFindElement _ label => Some (PyStr.or_else label "before_find_element")
  | CFindElements _ label =>
      Some (PyStr.or_else label "before_find_elements")
  | CQuit => Some "before_quit"
  | CClick we => Some (PyStr.or_else (_label we) "before_click")
  | CSendKeys we keys =>
      Some (PyStr.or_else (_label we)
              ("before_send_keys_" +:+ String.concat "_" keys))
  | CSubmit we => Some (PyStr.or_else (_label we) "before_submit")
  | CImplicitlyWait _ | CGetattr _ | CElementGetattr _ _ => None
  end.

(** The operation of the wrapped session or element behind a call, with
    the result as the wrapped object gives it. *)
Definition delegate (c : Call) (w : World) : Res Exn Returned * World :=
  let value (r : Res Exn Value * World) :=
    (match fst r with Ok v => Ok (RValue v) | Raise e => Raise e end,
     snd r) in
  match c with
  | CGet url => value (driver_get R url w)
  | CFindElement args label =>
      let r := driver_find_element R args w in
      (match fst r with
       | Ok el => Ok (RElement (mkWrapped el label))
       | Raise e => Raise e
       end, snd r)
  | CFindElements args label =>
      let r := driver_find_elements R args w in
      (match fst r with
       | Ok els => Ok (RElements (map (fun e => mkWrapped e label) els))
       | Raise e => Raise e
       end, snd r)
  | CQuit => value (driver_quit R w)
  | CClick we => value (element_click R (_element we) w)
  | CSendKeys we keys => value (element_send_keys R (_element we) keys w)
  | CSubmit we => value (element_submit R (_element we) w)
  | CImplicitlyWait seconds => value (driver_implicitly_wait R seconds w)
  | CGetattr item => value (driver_getattr R item w)
  | CElementGetattr we item => value (element_getattr R (_element we) item w)
  end.

(** The routine issues the calls one after the other and goes on after an
    exception, as [main] does with [try] and [finally]. *)
Definition run_calls (cs : list Call) (s : State) : State :=
  fold_left (fun s c => snd (issue c s)) cs s.

(** The state in which the capture of a call asks the session to render,
    and the path it asks for. *)
Definition named (s : State) : State :=
  mkSt (mkSDriver (out_dir (self s)) (S (_counter (self s)))
          (history (self s)))
       (snd (now R (world s))) (logs s).

Definition shot_path (s : State) (label : option string) : Path :=
  path_div (out_dir (self s))
    (artifact_name (S (_counter (self s))) (fst (now R (world s))) label).

(** State after a capture that succeeded, given the world the session
    left. *)
Definition captured (s : State) (label : option string) (w : World) : State :=
  mkSt (mkSDriver (out_dir (self s)) (S (_counter (self s)))
          (history (self s) ++ [shot_path s label]))
       w
       (logs s ++ [mkLog INFO ("Saved screenshot: "
                               +:+ path_str (shot_path s label))]).

(** The counter is the length of the history, and the names in the history
    are numbered from 1 in order. *)
Definition numbered (s : State) : Prop :=
  _counter (self s) = length (history (self s)) /\
  map sequence_number (history (self s))
  = map Some (seq 1 (length (history (self s)))).

(** The capture of a call succeeds: [save_screenshot] returns. *)
Definition capture_ok (c : Call) (s : State) : Prop :=
  match capture_label c with
  | Some l =>
      is_ok (fst (save_screenshot R (path_str (shot_path s (Some l)))
                    (world (named s)))) = true
  | None => True
  end.

Fixpoint captures_ok (cs : list Call) (s : State) : Prop :=
  match cs with
  | [] => True
  | c :: cs' => capture_ok c s /\ captures_ok cs' (snd (issue c s))
  end.

(** The capture of a call fails: [save_screenshot] raises. *)
Definition capture_fails (c : Call) (s : State) : Prop :=
  match capture_label c with
  | Some l =>
      is_ok (fst (save_screenshot R (path_str (shot_path s (Some l)))
                    (world (named s)))) = false
  | None => True
  end.

Fixpoint captures_fail (cs : list Call) (s : State) : Prop :=
  match cs with
  | [] => True
  | c :: cs' => capture_fails c s /\ captures_fail cs' (snd (issue c s))
  end.

(** The scripted sequence: navigate, locate one element under the label
    [box], click it, close. *)
Definition scenario (selector : Args) : M Value :=
  get R "https://example.test" ;;;
  box <- find_element R selector (Some "box") ;;
  click R box ;;;
  quit R.

End Driving.

Arguments CGet {Elem Args} url.
Arguments CFindElement {Elem Args} args label.
Arguments CFindElements {Elem Args} args label.
Arguments CQuit {Elem Args}.
Arguments CClick {Elem Args} we.
Arguments CSendKeys {Elem Args} we keys.
Arguments CSubmit {Elem Args} we.
Arguments CImplicitlyWait {Elem Args} seconds.
Arguments CGetattr {Elem Args} item.
Arguments CElementGetattr {Elem Args} we item.

(* ===================================================================== *)
(** * Concrete sessions and snapshots *)
(* ===================================================================== *)

Module Runs.

(** A routine that navigates, waits, looks up a list, clicks, types, reads
    an attribute and closes; the lookup raises. *)
Definition calls : list (@Call string string) :=
  [ CGet "https://example.test";
    CImplicitlyWait (5 # 1)%Q;
    CFindElements "li" None;
    CClick (mkWrapped "li[0]" None);
    CSendKeys (mkWrapped "q" None) ["ab"; "cd"];
    CGetattr "title";
    CQuit ].

Definition lookup_fails : St Mock.World :=
  Mock.fresh [] [false; false; true].

(** A session that cannot be reached: the first delegated call raises. *)
Definition unreachable : St Mock.World := Mock.fresh [] [true].

(** A session whose first rendering fails, and one whose second does. *)
Definition first_shot_fails : St Mock.World := Mock.fresh [true] [].
Definition second_shot_fails : St Mock.World :=
  Mock.fresh [false; true; false] [].

(** A session whose second and third renderings fail. *)
Definition two_shots_fail : St Mock.World :=
  Mock.fresh [false; true; true; false] [].

(** After the first snapshot: a lookup and a close whose captures fail,
    with a wait in between. *)
Definition failing_calls : list (@Call string string) :=
  [CFindElement "#q" None; CImplicitlyWait (5 # 1)%Q; CQuit].

End Runs.

Module Shots.

(** Three snapshots of a session; the file of the second one was deleted. *)
Definition first : Path :=
  path_div "screenshots"
    "0001_20261103_143305_123_before_get_https___example_test.png".
Definition second : Path :=
  path_div "screenshots" "0002_20261103_143305_373_box.png".
Definition third : Path :=
  path_div "screenshots" "0003_20261103_143305_623_box.png".

Definition taken : list Path := [first; second; third].

Definition on_disk : gmap string Cv2.Image :=
  <[path_str first := Cv2.mkImage "landing page" []]>
    (<[path_str third := Cv2.mkImage "box clicked" []]> ∅).

(** The detection of the specification's scenario, and one with corners
    between pixels. *)
Definition ok_box : Detection :=
  mkDetection
    ((inject_Z 10, inject_Z 10), (inject_Z 50, inject_Z 10),
     (inject_Z 50, inject_Z 30), (inject_Z 10, inject_Z 30))
    "OK" (9 # 10)%Q.

Definition tilted_box : Detection :=
  mkDetection
    ((21 # 2, 21 # 2)%Q, (101 # 2, 23 # 2)%Q,
     (101 # 2, 61 # 2)%Q, (21 # 2, 59 # 2)%Q)
    "OK" (9 # 10)%Q.

(** The scenario's box with its corners listed from the bottom-right
    one. *)
Definition reversed_box : Detection :=
  mkDetection
    ((inject_Z 50, inject_Z 30), (inject_Z 10, inject_Z 30),
     (inject_Z 10, inject_Z 10), (inject_Z 50, inject_Z 10))
    "OK" (9 # 10)%Q.

(** A reader that finds the scenario's detection on the first snapshot and
    nothing elsewhere. *)
Definition reader (path : string) : Res string (list Detection) :=
  if String.eqb path (path_str first) then Ok [ok_box] else Ok [].

End Shots.

(* ===================================================================== *)
(** * [main]: launch, scripted session, annotation *)
(* ===================================================================== *)

Module Argv.

(** The namespace that [parser.parse_args()] returns. *)
Record Namespace := mkNamespace {
  driver : string;
  search : string;
  headless : bool
}.

End Argv.

(** [try: body finally: final]: [final] runs whatever [body] did; an
    exception of [final] replaces the outcome of [body], otherwise the
    outcome of [body] stands. *)
Definition try_finally {S E A B : Type}
  (body : @Eff.M S E A) (final : @Eff.M S E B) : @Eff.M S E A :=
  fun s =>
    match body s with
    | (r, s1) =>
        match final s1 with
        | (Ok _, s2) => (r, s2)
        | (Raise e, s2) => (Raise e, s2)
        end
    end.

(** How a run of [main] ended: its outcome, the proxy as the session left
    it when a proxy was created, and the files and log after the annotation
    loop when the loop was reached. *)
Record Ended (World Exn : Type) := mkEnded {
  result : Res Exn unit;
  proxy : option (St World);
  annotation : option AState
}.
Arguments mkEnded {World Exn} _ _ _.
Arguments result {World Exn} _.
Arguments proxy {World Exn} _.
Arguments annotation {World Exn} _.

Section Main.
Context {World Elem Value Args Exn : Type}.
Variable R : Remote World Elem Value Args Exn.

(** [webdriver.Firefox(options=options)] and
    [webdriver.Chrome(options=options)], given the arguments added to the
    options: the world of the started session, or an exception. *)
Variable Firefox : list string -> Res Exn World.
Variable Chrome : list string -> Res Exn World.

(** [ValueError(message)] *)
Variable ValueError : string -> Exn.

(** [easyocr.Reader(["en"])]: a reader, given by its [readtext], or an
    exception. *)
Variable Reader : Res Exn (string -> Res Exn (list Detection)).

(** The positional arguments [By.ID, value] of a lookup. *)
Variable by_id : string -> Args.

(** The images that [cv2.imread] finds in a world of the session. *)
Variable files_of : World -> gmap string Cv2.Image.

Local Abbreviation State := (St World).
Local Abbreviation M := (@Eff.M State Exn).

(** The choice of the browser in [main]. *)
Definition launch (args : Argv.Namespace) : Res Exn World :=
  if String.eqb (Argv.driver args) "firefox" then
    Firefox (if Argv.headless args then ["--headless"] else [])
  else if String.eqb (Argv.driver args) "chrome" then
    Chrome (if Argv.headless args then ["--headless"] else [])
  else Raise (ValueError ("Unsupported driver: " +:+ Argv.driver args)).

(** The body of [try] in [main]. *)
Definition interact (query : string) : M Value :=
  get R "https://en.wikipedia.org" ;;;
  search_box <- find_element R (by_id "searchInput")
                  (Some "search_input") ;;
  send_keys R search_box [query] ;;;
  submit R search_box.

(** [try: ... finally: driver.quit()] *)
Definition session (query : string) : M Value :=
  try_finally (interact query) (quit R).

(** [main] from the parsed arguments on. *)
Definition main (args : Argv.Namespace) : Ended World Exn :=
  match launch args with
  | Raise e => mkEnded (Raise e) None None
  | Ok w =>
      match __init__ R "screenshots" w with
      | Raise e => mkEnded (Raise e) None None
      | Ok s0 =>
          match Reader with
          | Raise e => mkEnded (Raise e) (Some s0) None
          | Ok readtext =>
              match session (Argv.search args) s0 with
              | (Raise e, s1) => mkEnded (Raise e) (Some s1) None
              | (Ok _, s1) =>
                  let a :=
                    annotate readtext (history (self s1))
                      (mkAState (mkDisk (files_of (world s1)) [])
                         (logs s1)) in
                  mkEnded (fst a) (Some s1) (Some (snd a))
              end
          end
      end
  end.

(** The captures of a run of calls that raised. *)
Fixpoint failed_captures (cs : list Call) (s : State) : nat :=
  match cs with
  | [] => 0
  | c :: cs' =>
      (match capture_label c with
       | Some l =>
           if is_ok (fst (screenshot R (Some l) s)) then 0 else 1
       | None => 0
       end)
      + failed_captures cs' (snd (issue R c s))
  end.

End Main.

(** Strictly increasing numbers, all of them at most [bound]. *)
Fixpoint increasing_below (bound : nat) (l : list (option nat)) : Prop :=
  match l with
  | [] => True
  | None :: _ => False
  | Some n :: rest =>
      1 <= n <= bound /\
      Forall (fun o => match o with
                       | Some m => n < m
                       | None => False
                       end) rest /\
      increasing_below bound rest
  end.

(** [z] is [q] cut to an integer toward zero: less than one away from [q],
    on the side of zero. *)
Definition cut_toward_zero (z : Z) (q : Num) : Prop :=
  (q - 1 < inject_Z z)%Q /\ (inject_Z z < q + 1)%Q /\
  ((0 <= q)%Q -> (0 <= inject_Z z <= q)%Q) /\
  ((q <= 0)%Q -> (q <= inject_Z z <= 0)%Q).

(** The characters of a snapshot name: those of a label part, and the dot
    of the extension. *)
Definition name_char (c : ascii) : bool :=
  safe_char c || Ascii.eqb c ".".

Module MockMain.

(** What [save_screenshot] rendered, read back from what the session
    received: the image of a path is named after the path. *)
Definition shot_of (entry : string) : option string :=
  if String.prefix "save_screenshot " entry
  then Some (substring 16 (String.length entry - 16) entry)
  else None.

Definition files_of (w : Mock.World) : gmap string Cv2.Image :=
  fold_left
    (fun m entry =>
       match shot_of entry with
       | Some path => <[path := Cv2.mkImage path []]> m
       | None => m
       end)
    (Mock.received w) ∅.

(** A browser that starts at 14:33:05.123456 with no scripted failure,
    and a reader that finds the scenario's box on every image. *)
Definition browser (options : list string) : Res string Mock.World :=
  Ok (Mock.world0 [] []).

Definition reader : Res string (string -> Res string (list Detection)) :=
  Ok (fun _ => Ok [Shots.ok_box]).

Definition argv : Argv.Namespace := Argv.mkNamespace "firefox" "Napoleon" true.

Definition run (args : Argv.Namespace) : Ended Mock.World string :=
  main Mock.remote browser browser (fun msg => msg) reader (fun v => v)
    files_of args.

End MockMain.

(** What every call keeps: the numbers of the history increase and are at
    most the counter; the log has one record per snapshot. *)
Definition trailed {World : Type} (s : St World) : Prop :=
  increasing_below (_counter (self s))
    (map sequence_number (history (self s))) /\
  logs s
  = map (fun p => mkLog INFO ("Saved screenshot: " +:+ path_str p))
      (history (self s)).

(** Every snapshot of the history was named by [_next_name]. *)
Definition made {World : Type} (s : St World) : Prop :=
  Forall
    (fun p => exists k dt label,
       p = path_div (out_dir (self s)) (artifact_name k dt label))
    (history (self s)).

Module RunWitness.

(** Three navigations, the capture of the second one fails. *)
Definition three_gets : list (@Call string string) :=
  [CGet "https://a.test"; CGet "https://b.test"; CGet "https://c.test"].

End RunWitness.

Module MockFaults.

(** A browser whose second delegated call, the lookup of the search box,
    raises; a reader that cannot be created. *)
Definition flaky (options : list string) : Res string Mock.World :=
  Ok (Mock.world0 [] [false; true]).

Definition no_reader : Res string (string -> Res string (list Detection)) :=
  Raise "no model".

Definition run_flaky (args : Argv.Namespace) : Ended Mock.World string :=
  main Mock.remote flaky flaky (fun msg => msg) MockMain.reader
    (fun v => v) MockMain.files_of args.

Definition run_no_reader (args : Argv.Namespace)
  : Ended Mock.World string :=
  main Mock.remote MockMain.browser MockMain.browser (fun msg => msg)
    no_reader (fun v => v) MockMain.files_of args.

(** A reader that raises on the third snapshot of [Shots.taken]. *)
Definition broken_reader (path : string) : Res string (list Detection) :=
  if String.eqb path (path_str Shots.third) then Raise "ocr failed"
  else Ok [Shots.ok_box].

(** A proxy whose counter stands at 9998, and one at 9999. *)
Definition at_9998 : St Mock.World :=
  mkSt (mkSDriver "screenshots" (N.to_nat 9998) []) (Mock.world0 [] []) [].
Definition at_9999 : St Mock.World :=
  mkSt (mkSDriver "screenshots" (N.to_nat 9999) []) (Mock.world0 [] []) [].

End MockFaults.

(* ===================================================================== *)
(** * Facts on decimal formatting *)
(* ===================================================================== *)

Module PyStrFacts.
Import PyStr.

Lemma is_digit_pretty_N_char (x : N) : is_digit (pretty_N_char x) = true.
Proof.
  unfold pretty_N_char.
  destruct x as [|p]; [reflexivity|].
  do 4 (try destruct p as [p|p|]; try reflexivity).
Qed.

Lemma digit_val_pretty_N_char (x : N) :
  (x < 10)%N -> digit_val (pretty_N_char x) = x.
Proof.
  intros Hx.
  assert (x = 0 \/ x = 1 \/ x = 2 \/ x = 3 \/ x = 4 \/ x = 5 \/ x = 6
          \/ x = 7 \/ x = 8 \/ x = 9)%N as H by lia.
  repeat (destruct H as [->|H]; [reflexivity|]); subst; reflexivity.
Qed.

(** The digits that [pretty_N_go] puts in front of [s] are read back. *)
Lemma leading_digits_pretty_N_go (x : N) (s : string) :
  leading_digits (pretty_N_go x s) 0 = leading_digits s x.
Proof.
  revert s. induction (N.lt_wf_0 x) as [x _ IH]; intros s.
  destruct (N.eq_dec x 0%N) as [->|Hx].
  - rewrite pretty_N_go_0. reflexivity.
  - rewrite (pretty_N_go_step x s) by lia.
    rewrite IH by (apply N.div_lt; lia).
    cbn [leading_digits]. rewrite is_digit_pretty_N_char.
    rewrite digit_val_pretty_N_char by (apply N.mod_lt; lia).
    f_equal. rewrite (N.div_mod x 10) at 3 by lia. lia.
Qed.

Lemma pretty_N_go_app (x : N) (s t : string) :
  pretty_N_go x s +:+ t = pretty_N_go x (s +:+ t).
Proof.
  revert s. induction (N.lt_wf_0 x) as [x _ IH]; intros s.
  destruct (N.eq_dec x 0%N) as [->|Hx].
  - rewrite !pretty_N_go_0. reflexivity.
  - rewrite (pretty_N_go_step x s), (pretty_N_go_step x (s +:+ t)) by lia.
    rewrite IH by (apply N.div_lt; lia). reflexivity.
Qed.

Lemma leading_digits_pretty (n : N) (t : string) :
  leading_digits (pretty n +:+ t) 0 = leading_digits t n.
Proof.
  unfold pretty, pretty_N. destruct (decide (n = 0%N)) as [->|Hn].
  - reflexivity.
  - rewrite pretty_N_go_app. apply leading_digits_pretty_N_go.
Qed.

Lemma leading_digits_zeros (k : nat) (t : string) :
  leading_digits (zeros k +:+ t) 0 = leading_digits t 0.
Proof. induction k as [|k IH]; [reflexivity|exact IH]. Qed.

Lemma append_cons (x : ascii) (a b : string) :
  String x a +:+ b = String x (a +:+ b).
Proof. reflexivity. Qed.

Lemma append_assoc (a b c : string) : (a +:+ b) +:+ c = a +:+ (b +:+ c).
Proof.
  induction a as [|x a IH]; [reflexivity|].
  rewrite !append_cons. now rewrite IH.
Qed.

(** A formatted number followed by a character that is no digit is read
    back. *)
Lemma leading_digits_format_d (w : nat) (n : N) (c : ascii) (t : string) :
  is_digit c = false ->
  leading_digits (format_d w n +:+ String c t) 0 = n.
Proof.
  intros Hc. unfold format_d. cbv zeta.
  rewrite append_assoc, leading_digits_zeros, leading_digits_pretty.
  cbn [leading_digits]. now rewrite Hc.
Qed.

Lemma head_is_digit_pretty_N_go (x : N) (s : string) :
  head_is_digit s = true \/ (0 < x)%N ->
  head_is_digit (pretty_N_go x s) = true.
Proof.
  revert s. induction (N.lt_wf_0 x) as [x _ IH]; intros s H.
  destruct (N.eq_dec x 0%N) as [->|Hx].
  - rewrite pretty_N_go_0. destruct H as [H|H]; [exact H|lia].
  - rewrite (pretty_N_go_step x s) by lia.
    apply IH; [apply N.div_lt; lia|].
    left. apply is_digit_pretty_N_char.
Qed.

Lemma head_is_digit_app (s t : string) :
  head_is_digit s = true -> head_is_digit (s +:+ t) = true.
Proof. destruct s; [discriminate|intros H; exact H]. Qed.

Lemma head_is_digit_format_d (w : nat) (n : N) :
  head_is_digit (format_d w n) = true.
Proof.
  unfold format_d. cbv zeta.
  destruct (w - String.length (pretty n)) as [|k]; [|reflexivity].
  cbn [zeros String.append]. unfold pretty, pretty_N.
  destruct (decide (n = 0%N)); [reflexivity|].
  apply head_is_digit_pretty_N_go. right. lia.
Qed.

End PyStrFacts.

(* ===================================================================== *)
(** * How the methods run *)
(* ===================================================================== *)

Section ProxyFacts.
Context {World Elem Value Args Exn : Type}.
Variable R : Remote World Elem Value Args Exn.

Local Abbreviation State := (St World).

Lemma next_name_run (label : option string) (s : State) :
  _next_name R label s = (Ok (shot_path R s label), named R s).
Proof.
  unfold _next_name, shot_path, named, artifact_name, label_segment.
  unfold Eff.bind, set_self, Eff.modify, call, Eff.gets, Eff.ret.
  cbn. destruct (now R (world s)) as [dt w]. reflexivity.
Qed.

Lemma screenshot_run (label : option string) (s : State) :
  screenshot R label s =
  match save_screenshot R (path_str (shot_path R s label))
          (world (named R s)) with
  | (Ok _, w) => (Ok (shot_path R s label), captured R s label w)
  | (Raise e, w) => (Raise e, mkSt (self (named R s)) w (logs s))
  end.
Proof.
  unfold screenshot, Eff.bind at 1. rewrite next_name_run.
  unfold Eff.bind, call, logging_info, set_self, Eff.modify, Eff.ret, captured.
  cbn.
  destruct (save_screenshot R _ _) as [[v|e] w]; reflexivity.
Qed.

(** An intercepted call is its capture followed by its delegate. *)
Lemma issue_intercepted (c : Call) (l : string) (s : State) :
  capture_label c = Some l ->
  issue R c s =
  match screenshot R (Some l) s with
  | (Ok _, s1) =>
      (fst (delegate R c (world s1)),
       mkSt (self s1) (snd (delegate R c (world s1))) (logs s1))
  | (Raise e, s1) => (Raise e, s1)
  end.
Proof.
  intros Hl.
  destruct c; cbn in Hl; inversion Hl; subst l; clear Hl;
    cbn [issue delegate];
    unfold get, find_element, find_elements, quit, click, send_keys, submit;
    unfold Eff.bind; destruct (screenshot R _ s) as [[p|e] s1];
    try reflexivity; unfold call, Eff.ret; cbn;
    match goal with
    | |- context [?f (world s1)] => destruct (f (world s1)) as [[v|e] w]
    end; reflexivity.
Qed.

(** Any other call is its delegate. *)
Lemma issue_forwarded (c : Call) (s : State) :
  capture_label c = None ->
  issue R c s =
  (fst (delegate R c (world s)),
   mkSt (self s) (snd (delegate R c (world s))) (logs s)).
Proof.
  intros Hl.
  destruct c; cbn in Hl; try discriminate Hl;
    cbn [issue delegate];
    unfold implicitly_wait, __getattr__, element__getattr__;
    unfold Eff.bind, call, Eff.ret; cbn;
    match goal with
    | |- context [?f (world s)] => destruct (f (world s)) as [[v|e] w]
    end; reflexivity.
Qed.

End ProxyFacts.

Section SequenceFacts.
Context {World Elem Value Args Exn : Type}.
Variable R : Remote World Elem Value Args Exn.

Local Abbreviation State := (St World).

Lemma artifact_name_shape (n : nat) (dt : DateTime) (label : option string) :
  artifact_name n dt label =
  PyStr.format_d 4 (N.of_nat n)
  +:+ String "_" (timestamp dt +:+ "_" +:+ label_segment label +:+ ".png").
Proof. reflexivity. Qed.

Lemma sequence_number_artifact_name (dir : string) (n : nat) (dt : DateTime)
  (label : option string) :
  sequence_number (path_div dir (artifact_name n dt label)) = Some n.
Proof.
  unfold sequence_number, path_div. cbn [name].
  rewrite artifact_name_shape.
  pose proof (PyStrFacts.head_is_digit_format_d 4 (N.of_nat n)) as Hd.
  destruct (PyStr.format_d 4 (N.of_nat n)) as [|c r] eqn:E; [discriminate|].
  rewrite PyStrFacts.append_cons. cbn in Hd. rewrite Hd.
  rewrite <- PyStrFacts.append_cons, <- E.
  rewrite PyStrFacts.leading_digits_format_d by reflexivity.
  now rewrite Nat2N.id.
Qed.

Lemma sequence_number_shot_path (s : State) (label : option string) :
  sequence_number (shot_path R s label) = Some (S (_counter (self s))).
Proof. apply sequence_number_artifact_name. Qed.

Lemma numbered_captured (s : State) (label : option string) (w : World) :
  numbered s -> numbered (captured R s label w).
Proof.
  intros [Hc Hh]. unfold numbered, captured. cbn [self _counter history].
  rewrite length_app. cbn [length]. split; [lia|].
  rewrite map_app, Hh. cbn [map].
  rewrite sequence_number_shot_path, Hc.
  replace (length (history (self s)) + 1) with (S (length (history (self s))))
    by lia.
  rewrite seq_S, map_app. reflexivity.
Qed.

Lemma issue_numbered (c : Call) (s : State) :
  capture_ok R c s -> numbered s ->
  numbered (snd (issue R c s)) /\
  length (history (self (snd (issue R c s))))
  = length (history (self s)) + (if intercepted c then 1 else 0).
Proof.
  intros Hok Hn. unfold capture_ok in Hok.
  destruct (capture_label c) as [l|] eqn:Hl.
  - rewrite (issue_intercepted R c l s Hl), screenshot_run.
    destruct (save_screenshot R _ _) as [[v|e] w]; [|discriminate Hok].
    cbn [snd]. split.
    + destruct (numbered_captured s (Some l) w Hn) as [H1 H2].
      split; assumption.
    + cbn [self captured history]. rewrite length_app. cbn [length].
      destruct c; cbn in Hl; try discriminate Hl; reflexivity.
  - rewrite (issue_forwarded R c s Hl). cbn [snd self]. split.
    + exact Hn.
    + destruct c; cbn in Hl; try discriminate Hl; cbn; lia.
Qed.

Lemma run_calls_numbered (cs : list Call) (s : State) :
  captures_ok R cs s -> numbered s ->
  numbered (run_calls R cs s) /\
  length (history (self (run_calls R cs s)))
  = length (history (self s)) + length (List.filter intercepted cs).
Proof.
  revert s. induction cs as [|c cs IH]; intros s Hok Hn.
  - cbn. split; [exact Hn|lia].
  - destruct Hok as [Hc Hcs].
    destruct (issue_numbered c s Hc Hn) as [Hn' Hlen].
    destruct (IH _ Hcs Hn') as [Hn'' Hlen'].
    change (run_calls R (c :: cs) s) with (run_calls R cs (snd (issue R c s))).
    split; [exact Hn''|].
    rewrite Hlen', Hlen. cbn [List.filter].
    destruct (intercepted c); cbn [length]; lia.
Qed.

Lemma init_numbered (dir : string) (w : World) (s0 : State) :
  __init__ R dir w = Ok s0 ->
  numbered s0 /\ self s0 = mkSDriver dir 0 [] /\ logs s0 = [].
Proof.
  unfold __init__. destruct (mkdir R dir w) as [[u|e] w']; [|discriminate].
  intros H. inversion H. subst s0. repeat split.
Qed.

Lemma filter_session_le (cs : list (@Call Elem Args)) :
  length (List.filter session_intercepted cs)
  <= length (List.filter intercepted cs).
Proof.
  induction cs as [|c cs IH]; [reflexivity|].
  cbn [List.filter]. unfold intercepted at 1.
  destruct (session_intercepted c); cbn [orb length]; [lia|].
  destruct (element_intercepted c); cbn [length]; lia.
Qed.

(** C2. After any sequence of calls issued on a fresh proxy in which every
    capture succeeds, the history has one snapshot for each intercepted
    call, so at least one for each call that the session proxy intercepts,
    and the sequence numbers of the history are 1, 2, ... up to its length,
    in call order. *)
Theorem history_numbered_in_call_order
  (dir : string) (w : World) (s0 : State) (cs : list Call) :
  __init__ R dir w = Ok s0 ->
  captures_ok R cs s0 ->
  let h := history (self (run_calls R cs s0)) in
  length (List.filter session_intercepted cs) <= length h /\
  length h = length (List.filter intercepted cs) /\
  map sequence_number h = map Some (seq 1 (length h)).
Proof.
  intros Hinit Hok h.
  destruct (init_numbered dir w s0 Hinit) as (Hn & Hself & _).
  destruct (run_calls_numbered cs s0 Hok Hn) as [[_ Hseq] Hlen].
  rewrite Hself in Hlen. cbn [history length] in Hlen.
  subst h. repeat split.
  - rewrite Hlen. apply filter_session_le.
  - exact Hlen.
  - exact Hseq.
Qed.

End SequenceFacts.

Section ProxyClaims.
Context {World Elem Value Args Exn : Type}.
Variable R : Remote World Elem Value Args Exn.

Local Abbreviation State := (St World).

Lemma intercepted_capture_label (c : @Call Elem Args) :
  intercepted c = true -> exists l, capture_label c = Some l.
Proof. destruct c; cbn; intros H; try discriminate H; eauto. Qed.

Lemma forwarded_capture_label (c : @Call Elem Args) :
  intercepted c = false -> capture_label c = None.
Proof. destruct c; cbn; intros H; try discriminate H; reflexivity. Qed.

(** C3. A call that is not intercepted leaves the proxy as it was, the
    counter and the history included, logs nothing, and hands back what
    the wrapped session or element hands back for the same call, as a
    plain value. *)
Theorem forwarded_call_is_transparent (c : Call) (s : State) :
  intercepted c = false ->
  history (self (snd (issue R c s))) = history (self s) /\
  self (snd (issue R c s)) = self s /\
  logs (snd (issue R c s)) = logs s /\
  issue R c s =
    (fst (delegate R c (world s)),
     mkSt (self s) (snd (delegate R c (world s))) (logs s)) /\
  (forall r, fst (issue R c s) = Ok r -> exists v, r = RValue v).
Proof.
  intros Hc. pose proof (forwarded_capture_label c Hc) as Hl.
  rewrite (issue_forwarded R c s Hl). cbn [fst snd self logs].
  repeat split.
  destruct c; cbn in Hc; try discriminate Hc; cbn [delegate fst snd];
    intros r Hr;
    match type of Hr with
    | match ?x with _ => _ end = _ => destruct x as [v|e]
    end; inversion Hr; eauto.
Qed.

(** C6. When the capture of an intercepted call has returned and the
    wrapped session or element raises in the delegated call, the call
    raises that same exception, the delegate was called once, and the
    snapshot taken before it is the last entry of the history. *)
Theorem delegate_exception_propagates
  (c : Call) (s s1 : State) (p : Path) (e : Exn) :
  intercepted c = true ->
  screenshot R (capture_label c) s = (Ok p, s1) ->
  fst (delegate R c (world s1)) = Raise e ->
  fst (issue R c s) = Raise e /\
  history (self (snd (issue R c s))) = (history (self s) ++ [p])%list /\
  world (snd (issue R c s)) = snd (delegate R c (world s1)).
Proof.
  intros Hc Hshot He.
  destruct (intercepted_capture_label c Hc) as [l Hl].
  rewrite (issue_intercepted R c l s Hl).
  rewrite Hl in Hshot. rewrite Hshot. cbn [fst snd self world].
  rewrite screenshot_run in Hshot.
  destruct (save_screenshot R _ _) as [[v|e'] w]; [|discriminate Hshot].
  inversion Hshot; subst p s1. cbn [captured self history].
  repeat split. exact He.
Qed.

(** C4, as the code has it.  [_next_name] always returns; the name is
    determined by the incremented counter, the clock reading and the label,
    so two calls that see the same counter, directory and clock reading
    return the same path; the call adds one to the counter, reads the
    clock, and leaves the directory, the history and the log as they
    were. *)
Theorem next_name_counts_and_names (label : option string) (s : State) :
  fst (_next_name R label s)
  = Ok (path_div (out_dir (self s))
          (artifact_name (S (_counter (self s))) (fst (now R (world s)))
             label)) /\
  _counter (self (snd (_next_name R label s))) = S (_counter (self s)) /\
  history (self (snd (_next_name R label s))) = history (self s) /\
  out_dir (self (snd (_next_name R label s))) = out_dir (self s) /\
  logs (snd (_next_name R label s)) = logs s /\
  world (snd (_next_name R label s)) = snd (now R (world s)) /\
  (forall s' : State,
     _counter (self s') = _counter (self s) ->
     out_dir (self s') = out_dir (self s) ->
     fst (now R (world s')) = fst (now R (world s)) ->
     fst (_next_name R label s') = fst (_next_name R label s)).
Proof.
  rewrite next_name_run. repeat split.
  intros s' Hc Hd Ht. rewrite next_name_run. cbn [fst].
  unfold shot_path. now rewrite Hc, Hd, Ht.
Qed.

End ProxyClaims.

Module NameFacts.
Import PyStr PyStrFacts.

Lemma length_append (a b : string) :
  String.length (a +:+ b) = String.length a + String.length b.
Proof.
  induction a as [|x a IH]; [reflexivity|].
  rewrite append_cons. cbn [String.length]. now rewrite IH.
Qed.

Lemma length_zeros (k : nat) : String.length (zeros k) = k.
Proof. induction k as [|k IH]; cbn; [reflexivity|now rewrite IH]. Qed.

Lemma every_append (p : ascii -> bool) (a b : string) :
  every p (a +:+ b) = every p a && every p b.
Proof.
  induction a as [|x a IH]; [reflexivity|].
  rewrite append_cons. cbn [every]. rewrite IH. now rewrite andb_assoc.
Qed.

Lemma every_zeros (k : nat) : every is_digit (zeros k) = true.
Proof. induction k as [|k IH]; [reflexivity|exact IH]. Qed.

Lemma every_digit_pretty_N_go (x : N) (s : string) :
  every is_digit s = true -> every is_digit (pretty_N_go x s) = true.
Proof.
  revert s. induction (N.lt_wf_0 x) as [x _ IH]; intros s Hs.
  destruct (N.eq_dec x 0%N) as [->|Hx].
  - now rewrite pretty_N_go_0.
  - rewrite (pretty_N_go_step x s) by lia.
    apply IH; [apply N.div_lt; lia|].
    cbn [every]. now rewrite is_digit_pretty_N_char.
Qed.

Lemma every_digit_pretty (n : N) : every is_digit (pretty n) = true.
Proof.
  unfold pretty, pretty_N. destruct (decide (n = 0%N)); [reflexivity|].
  now apply every_digit_pretty_N_go.
Qed.

(** The sequence field: digits only, at least [w] of them. *)
Lemma every_digit_format_d (w : nat) (n : N) :
  every is_digit (format_d w n) = true.
Proof.
  unfold format_d. cbv zeta.
  now rewrite every_append, every_zeros, every_digit_pretty.
Qed.

Lemma length_format_d (w : nat) (n : N) :
  String.length (format_d w n) = Nat.max w (String.length (pretty n)).
Proof.
  unfold format_d. cbv zeta. rewrite length_append, length_zeros. lia.
Qed.

Lemma append_nil_r (a : string) : a +:+ "" = a.
Proof.
  induction a as [|x a IH]; [reflexivity|].
  rewrite append_cons. now rewrite IH.
Qed.

Lemma zeros_snoc (k : nat) : zeros k +:+ "0" = zeros (S k).
Proof.
  induction k as [|k IH]; [reflexivity|].
  cbn [zeros]. rewrite append_cons. now rewrite IH.
Qed.

Lemma length_fixed_digits (w : nat) (n : N) :
  String.length (fixed_digits w n) = w.
Proof.
  revert n. induction w as [|w IH]; intros n; [reflexivity|].
  cbn [fixed_digits]. rewrite length_append, IH. cbn. lia.
Qed.

(** Below [10 ^ w], padding the digits that [pretty_N_go] prints gives the
    [w] low digits. *)
Lemma zeros_pretty_N_go_fixed (w : nat) (n : N) :
  (n < 10 ^ N.of_nat w)%N ->
  zeros (w - String.length (pretty_N_go n "")) +:+ pretty_N_go n ""
  = fixed_digits w n.
Proof.
  revert n. induction w as [|w IH]; intros n Hn.
  - assert (n = 0%N) as -> by (cbn in Hn; lia). reflexivity.
  - assert (Hdiv : (n / 10 < 10 ^ N.of_nat w)%N).
    { apply N.Div0.div_lt_upper_bound.
      rewrite Nat2N.inj_succ, N.pow_succ_r' in Hn. exact Hn. }
    cbn [fixed_digits]. rewrite <- (IH _ Hdiv).
    destruct (N.eq_dec n 0%N) as [->|Hpos].
    + rewrite pretty_N_go_0. cbn [String.length].
      change (0 / 10)%N with 0%N. change (0 mod 10)%N with 0%N.
      rewrite pretty_N_go_0. cbn [String.length pretty_N_char].
      rewrite !Nat.sub_0_r, !append_nil_r. now rewrite zeros_snoc.
    + rewrite (pretty_N_go_step n "") by lia.
      pose proof (pretty_N_go_app (n / 10) ""
                    (String (pretty_N_char (n mod 10)) "")) as E.
      change ("" +:+ String (pretty_N_char (n mod 10)) "")
        with (String (pretty_N_char (n mod 10)) "") in E.
      rewrite <- E. clear E.
      rewrite length_append. cbn [String.length String.append].
      replace (S w - (String.length (pretty_N_go (n / 10) "") + 1))
        with (w - String.length (pretty_N_go (n / 10) "")) by lia.
      now rewrite append_assoc.
Qed.

Lemma format_d_fixed (w : nat) (n : N) :
  0 < w -> (n < 10 ^ N.of_nat w)%N -> format_d w n = fixed_digits w n.
Proof.
  intros Hw Hn. rewrite <- (zeros_pretty_N_go_fixed w n Hn).
  unfold format_d. cbv zeta. unfold pretty, pretty_N.
  destruct (decide (n = 0%N)) as [->|Hpos]; [|reflexivity].
  rewrite pretty_N_go_0. cbn [String.length].
  rewrite Nat.sub_0_r, append_nil_r.
  destruct w as [|w]; [lia|]. cbn [Nat.sub]. rewrite Nat.sub_0_r.
  apply zeros_snoc.
Qed.

(** The digits split at any position. *)
Lemma fixed_digits_add (a b : nat) (n : N) :
  fixed_digits (a + b) n
  = fixed_digits a (n / 10 ^ N.of_nat b) +:+ fixed_digits b n.
Proof.
  revert n. induction b as [|b IH]; intros n.
  - rewrite Nat.add_0_r. cbn [N.of_nat fixed_digits].
    rewrite N.pow_0_r, N.div_1_r. now rewrite append_nil_r.
  - rewrite Nat.add_succ_r. cbn [fixed_digits]. rewrite IH.
    rewrite append_assoc. f_equal. f_equal.
    rewrite Nat2N.inj_succ, N.pow_succ_r', N.Div0.div_div. reflexivity.
Qed.

Lemma substring_append (a b : string) :
  substring 0 (String.length a) (a +:+ b) = a.
Proof.
  induction a as [|x a IH]; [now destruct b|].
  rewrite append_cons. cbn [String.length substring]. now rewrite IH.
Qed.

Lemma drop_last_append (a b : string) :
  drop_last (String.length b) (a +:+ b) = a.
Proof.
  unfold drop_last. rewrite length_append.
  replace (String.length a + String.length b - String.length b)
    with (String.length a) by lia.
  apply substring_append.
Qed.

Lemma strftime_to_the_second (dt : DateTime) :
  strftime dt = to_the_second dt +:+ format_d 6 (microsecond dt).
Proof.
  unfold strftime, to_the_second. now rewrite !append_assoc.
Qed.

(** The timestamp ends with the milliseconds, on three digits. *)
Lemma timestamp_milliseconds (dt : DateTime) :
  (microsecond dt < 1000000)%N ->
  timestamp dt = to_the_second dt +:+ format_d 3 (microsecond dt / 1000).
Proof.
  intros Hm. unfold timestamp. rewrite strftime_to_the_second.
  rewrite (format_d_fixed 6) by (cbn; lia).
  rewrite (fixed_digits_add 3 3). rewrite <- append_assoc.
  rewrite <- (length_fixed_digits 3 (microsecond dt)) at 1.
  rewrite drop_last_append. f_equal.
  change (10 ^ N.of_nat 3)%N with 1000%N.
  symmetry. apply format_d_fixed; [lia|].
  change (10 ^ N.of_nat 3)%N with 1000%N.
  apply N.Div0.div_lt_upper_bound. lia.
Qed.

Lemma safe_char_sanitize_char (c : ascii) :
  safe_char (sanitize_char c) = true.
Proof.
  unfold sanitize_char. fold (safe_char c).
  destruct (safe_char c) eqn:E; [exact E|reflexivity].
Qed.

Lemma every_safe_sanitize (l : string) :
  every safe_char (sanitize l) = true.
Proof.
  induction l as [|c l IH]; [reflexivity|].
  cbn [sanitize map_chars every]. rewrite safe_char_sanitize_char.
  exact IH.
Qed.

Lemma length_sanitize (l : string) :
  String.length (sanitize l) = String.length l.
Proof.
  induction l as [|c l IH]; [reflexivity|].
  cbn [sanitize map_chars String.length]. f_equal. exact IH.
Qed.

Lemma get_sanitize (i : nat) (l : string) :
  String.get i (sanitize l)
  = option_map (fun c => if safe_char c then c else "_"%char)
      (String.get i l).
Proof.
  revert i. induction l as [|c l IH]; intros i; [reflexivity|].
  destruct i as [|i]; [reflexivity|].
  cbn [sanitize map_chars String.get]. apply IH.
Qed.

Lemma every_safe_label_segment (label : option string) :
  every safe_char (label_segment label) = true.
Proof.
  destruct label as [[|c l]|]; try reflexivity.
  apply every_safe_sanitize.
Qed.

End NameFacts.

Section NamerClaims.
Context {World Elem Value Args Exn : Type}.
Variable R : Remote World Elem Value Args Exn.

Local Abbreviation State := (St World).

(** C8, as the code has it.  The name is the counter after the increment,
    printed in decimal and padded with zeros to four digits, then the
    timestamp cut to milliseconds, then the label part, joined by
    underscores and followed by [.png].  The label part is [action] when
    the label is absent or empty; otherwise it is the label with every
    character that is not alphanumeric, [-] or [_] replaced by [_].  In
    both cases it holds only alphanumerics, [-] and [_]. *)
Theorem next_name_format (label : option string) (s : State) :
  exists segment : string,
    fst (_next_name R label s)
    = Ok (path_div (out_dir (self s))
            (PyStr.format_d 4 (N.of_nat (S (_counter (self s)))) +:+ "_"
             +:+ timestamp (fst (now R (world s))) +:+ "_"
             +:+ segment +:+ ".png")) /\
    PyStr.every safe_char segment = true /\
    match label with
    | None | Some EmptyString => segment = "action"
    | Some l =>
        String.length segment = String.length l /\
        forall i,
          String.get i segment
          = option_map (fun c => if safe_char c then c else "_"%char)
              (String.get i l)
    end /\
    PyStr.every PyStr.is_digit
      (PyStr.format_d 4 (N.of_nat (S (_counter (self s))))) = true /\
    4 <= String.length (PyStr.format_d 4 (N.of_nat (S (_counter (self s)))))
    /\
    PyStr.leading_digits
      (PyStr.format_d 4 (N.of_nat (S (_counter (self s)))) +:+ "_") 0
    = N.of_nat (S (_counter (self s))) /\
    ((microsecond (fst (now R (world s))) < 1000000)%N ->
     timestamp (fst (now R (world s)))
     = to_the_second (fst (now R (world s)))
       +:+ PyStr.format_d 3 (microsecond (fst (now R (world s))) / 1000)).
Proof.
  exists (label_segment label). rewrite next_name_run. cbn [fst].
  split; [reflexivity|].
  split; [apply NameFacts.every_safe_label_segment|].
  split.
  - destruct label as [[|c l]|]; try reflexivity.
    cbn [label_segment]. split.
    + apply NameFacts.length_sanitize.
    + intros i. apply NameFacts.get_sanitize.
  - split; [apply NameFacts.every_digit_format_d|].
    split.
    + rewrite NameFacts.length_format_d. lia.
    + split; [now apply PyStrFacts.leading_digits_format_d|].
      apply NameFacts.timestamp_milliseconds.
Qed.

End NamerClaims.

Section CaptureClaims.
Context {World Elem Value Args Exn : Type}.
Variable R : Remote World Elem Value Args Exn.

Local Abbreviation State := (St World).

(** In a run that returned, the next capture returned: the hypothesis on
    the run goes on with the state after the capture, a run in which the
    capture raised being no such run. *)
Ltac returned_capture H :=
  rewrite screenshot_run in H;
  destruct (save_screenshot _ _ _) as [[?|?] ?]; [|discriminate H];
  unfold call at 1 in H; cbn [world captured] in H.

(** C1. When the scripted sequence runs to its end on a fresh proxy, the
    history holds four snapshots: they were captured under the labels
    [before_get_https://example.test], [box], [box] and [before_quit], in
    that order, and are numbered 1 to 4.  The label parts of their names
    are the sanitised labels. *)
Theorem scenario_history
  (dir : string) (w : World) (s0 s : State) (selector : Args) (v : Value) :
  __init__ R dir w = Ok s0 ->
  scenario R selector s0 = (Ok v, s) ->
  exists t1 t2 t3 t4 : DateTime,
    history (self s)
    = [ path_div dir
          (artifact_name 1 t1 (Some "before_get_https://example.test"));
        path_div dir (artifact_name 2 t2 (Some "box"));
        path_div dir (artifact_name 3 t3 (Some "box"));
        path_div dir (artifact_name 4 t4 (Some "before_quit")) ] /\
    map sequence_number (history (self s))
    = [Some 1; Some 2; Some 3; Some 4] /\
    map name (history (self s))
    = [ "0001_" +:+ timestamp t1 +:+ "_before_get_https___example_test.png";
        "0002_" +:+ timestamp t2 +:+ "_box.png";
        "0003_" +:+ timestamp t3 +:+ "_box.png";
        "0004_" +:+ timestamp t4 +:+ "_before_quit.png" ].
Proof.
  intros Hinit Hrun.
  destruct (init_numbered R dir w s0 Hinit) as (_ & Hself & _).
  unfold scenario, get, find_element, click, quit in Hrun.
  unfold Eff.bind in Hrun.
  returned_capture Hrun.
  destruct (driver_get R _ _) as [[va|ea] wa]; [|discriminate Hrun].
  returned_capture Hrun.
  destruct (driver_find_element R _ _) as [[el|eb] wb]; [|discriminate Hrun].
  unfold Eff.ret at 1 in Hrun. cbn [_label _element PyStr.or_else] in Hrun.
  returned_capture Hrun.
  destruct (element_click R _ _) as [[vc|ec] wc]; [|discriminate Hrun].
  returned_capture Hrun.
  destruct (driver_quit R _) as [[vd|ed] wd]; [|discriminate Hrun].
  inversion Hrun; subst v s. clear Hrun.
  unfold shot_path. cbn [self history _counter out_dir world logs].
  rewrite Hself. cbn [history _counter out_dir app].
  eexists _, _, _, _. split; [reflexivity|].
  split.
  - cbn [map]. now rewrite !sequence_number_artifact_name.
  - reflexivity.
Qed.

End CaptureClaims.

Section HistoryNames.
Context {World Elem Value Args Exn : Type}.
Variable R : Remote World Elem Value Args Exn.

Local Abbreviation State := (St World).

Lemma proxy_named_shot_path (s : State) (label : option string) :
  proxy_named (out_dir (self s)) (history (self s)) ->
  proxy_named (out_dir (self s)) (history (self s) ++ [shot_path R s label]).
Proof.
  intros H. apply List.Forall_app. split; [exact H|].
  constructor; [|constructor]. split; [reflexivity|].
  unfold shot_path, path_div. cbn [name]. rewrite artifact_name_shape.
  apply PyStrFacts.head_is_digit_app, PyStrFacts.head_is_digit_format_d.
Qed.

Lemma issue_keeps_names (c : Call) (s : State) :
  proxy_named (out_dir (self s)) (history (self s)) ->
  out_dir (self (snd (issue R c s))) = out_dir (self s) /\
  proxy_named (out_dir (self s)) (history (self (snd (issue R c s)))).
Proof.
  intros H. destruct (capture_label c) as [l|] eqn:Hl.
  - rewrite (issue_intercepted R c l s Hl), screenshot_run.
    destruct (save_screenshot R _ _) as [[v|e] w]; cbn [snd self].
    + cbn [captured self out_dir history]. split; [reflexivity|].
      now apply proxy_named_shot_path.
    + cbn [named self out_dir history]. split; [reflexivity|exact H].
  - rewrite (issue_forwarded R c s Hl). cbn [snd self].
    split; [reflexivity|exact H].
Qed.

Lemma run_calls_keeps_names (cs : list Call) (s : State) :
  proxy_named (out_dir (self s)) (history (self s)) ->
  proxy_named (out_dir (self s)) (history (self (run_calls R cs s))).
Proof.
  revert s. induction cs as [|c cs IH]; intros s H; [exact H|].
  change (run_calls R (c :: cs) s) with (run_calls R cs (snd (issue R c s))).
  destruct (issue_keeps_names c s H) as [Hdir Hn].
  rewrite <- Hdir. apply IH. now rewrite Hdir.
Qed.

Lemma proxy_named_sources_kept (dir : string) (h : list Path) :
  proxy_named dir h -> sources_kept h.
Proof.
  intros H p q Hp Hq Heq.
  pose proof (proj1 (List.Forall_forall _ _) H p Hp) as [Hpd Hpn].
  pose proof (proj1 (List.Forall_forall _ _) H q Hq) as [Hqd _].
  unfold path_str, annotated_path, with_name in Heq. cbn [parent name] in Heq.
  rewrite Hpd, Hqd in Heq.
  apply (inj (String.app dir)) in Heq.
  apply (inj (String.app "/")) in Heq.
  rewrite <- Heq in Hpn. discriminate Hpn.
Qed.

(** The histories that the proxy builds never hold the path of an annotated
    image, whatever the calls and their outcomes. *)
Lemma proxy_history_sources_kept
  (dir : string) (w : World) (s0 : State) (cs : list Call) :
  __init__ R dir w = Ok s0 ->
  sources_kept (history (self (run_calls R cs s0))).
Proof.
  intros Hinit.
  destruct (init_numbered R dir w s0 Hinit) as (_ & Hself & _).
  apply (proxy_named_sources_kept dir).
  replace dir with (out_dir (self s0)) by now rewrite Hself.
  apply run_calls_keeps_names. rewrite Hself. constructor.
Qed.

End HistoryNames.

(* ===================================================================== *)
(** * The annotation loop: what it writes and logs *)
(* ===================================================================== *)

Section AnnotateFacts.
Context {Exn : Type}.
Variable readtext : string -> Res Exn (list Detection).

Lemma draw_detections_marks (ds : list Detection) (img : Cv2.Image) :
  draw_detections img ds
  = Cv2.mkImage (Cv2.picture img)
      (Cv2.marks img ++ flat_map placement ds).
Proof.
  revert img. induction ds as [|d ds IH]; intros img.
  - cbn. rewrite app_nil_r. now destruct img.
  - unfold draw_detections in *. cbn [fold_left flat_map].
    rewrite IH. unfold draw_detection, Cv2.putText, Cv2.rectangle.
    cbn [Cv2.picture Cv2.marks]. unfold placement.
    now rewrite <- !app_assoc.
Qed.

Lemma annotate_one_missing (p : Path) (s : AState) :
  files (disk s) !! path_str p = None ->
  annotate_one readtext p s
  = (Ok tt,
     mkAState (disk s)
       (alogs s ++ [mkLog INFO ("Annotating " +:+ path_str p);
                    mkLog ERROR ("Could not read image " +:+ path_str p)])).
Proof.
  intros H. unfold annotate_one, Eff.bind, logging, imread, Eff.modify,
    Eff.gets. cbn. rewrite H. cbn. now rewrite <- app_assoc.
Qed.

Lemma annotate_one_loaded (p : Path) (s : AState) (img : Cv2.Image)
  (ds : list Detection) :
  files (disk s) !! path_str p = Some img ->
  readtext (path_str p) = Ok ds ->
  annotate_one readtext p s
  = (Ok tt,
     mkAState
       (mkDisk
          (store (files (disk s))
             (path_str (annotated_path p), draw_detections img ds))
          (written (disk s)
           ++ [(path_str (annotated_path p), draw_detections img ds)]))
       (alogs s ++ [mkLog INFO ("Annotating " +:+ path_str p);
                    mkLog INFO ("Saved annotated screenshot: "
                                +:+ path_str (annotated_path p))])).
Proof.
  intros H Hd. unfold annotate_one, Eff.bind, logging, imread, imwrite,
    Eff.modify, Eff.gets. cbn. rewrite H, Hd. cbn.
  now rewrite <- app_assoc.
Qed.

Lemma outputs_agree (fs fs' : gmap string Cv2.Image) (h : list Path) :
  (forall p, In p h -> fs' !! path_str p = fs !! path_str p) ->
  outputs readtext fs' h = outputs readtext fs h /\
  records fs' h = records fs h.
Proof.
  induction h as [|p h IH]; intros H; [split; reflexivity|].
  destruct IH as [IH1 IH2]; [intros q Hq; apply H; now right|].
  unfold outputs, records, loaded in *. cbn [flat_map].
  rewrite IH1, IH2, (H p) by now left. split; reflexivity.
Qed.

(** The run of the loop, when detection returns and sources are kept. *)
Lemma annotate_run (h : list Path) (s : AState) :
  detects readtext (files (disk s)) h -> sources_kept h ->
  annotate readtext h s
  = (Ok tt,
     mkAState
       (mkDisk
          (fold_left store (outputs readtext (files (disk s)) h)
             (files (disk s)))
          (written (disk s) ++ outputs readtext (files (disk s)) h))
       (alogs s ++ records (files (disk s)) h)).
Proof.
  revert s. induction h as [|p h IH]; intros s Hd Hk.
  - cbn. rewrite !app_nil_r. now destruct s as [[? ?] ?].
  - assert (Hk' : sources_kept h).
    { intros a b Ha Hb. apply Hk; now right. }
    cbn [annotate]. unfold Eff.bind at 1.
    destruct (files (disk s) !! path_str p) as [img|] eqn:Hp.
    + pose proof (Hd p (or_introl eq_refl)) as Hok.
      unfold loaded in Hok. rewrite Hp in Hok. specialize (Hok eq_refl).
      destruct (readtext (path_str p)) as [ds|e] eqn:Hr; [|discriminate Hok].
      rewrite (annotate_one_loaded p s img ds Hp Hr).
      set (s1 := mkAState _ _).
      assert (Hsame : forall q, In q h ->
                files (disk s1) !! path_str q = files (disk s) !! path_str q).
      { intros q Hq. subst s1. cbn [disk files store fst snd].
        apply lookup_insert_ne. apply Hk; [now right|now left]. }
      destruct (outputs_agree (files (disk s)) (files (disk s1)) h Hsame)
        as [Ho Hrec].
      rewrite IH; [|intros q Hq Hl; apply Hd; [now right|]|exact Hk'].
      * rewrite Ho, Hrec. subst s1. cbn [disk files written alogs].
        unfold outputs at 3 4, records at 2, loaded. cbn [flat_map].
        rewrite Hp, Hr. cbn [app fold_left].
        now rewrite <- !app_assoc.
      * unfold loaded in *. now rewrite <- Hsame.
    + rewrite (annotate_one_missing p s Hp).
      rewrite IH; cbn [disk alogs];
        [|intros q Hq Hl; apply Hd; [now right|exact Hl]|exact Hk'].
      unfold outputs at 3 4, records at 2, loaded. cbn [flat_map].
      rewrite Hp. cbn [app]. now rewrite <- !app_assoc.
Qed.

End AnnotateFacts.

Section StoreFacts.

Lemma lookup_fold_store (outs : list (string * Cv2.Image))
  (m : gmap string Cv2.Image) (k : string) :
  fold_left store outs m !! k
  = match last_write k outs with
    | Some v => Some v
    | None => m !! k
    end.
Proof.
  revert m. induction outs as [|kv outs IH]; intros m; [reflexivity|].
  cbn [fold_left last_write]. rewrite IH.
  destruct (last_write k outs) as [v|]; [reflexivity|].
  unfold store. rewrite lookup_insert.
  destruct (decide (fst kv = k)); reflexivity.
Qed.

Lemma fold_store_twice (outs : list (string * Cv2.Image))
  (m : gmap string Cv2.Image) :
  fold_left store outs (fold_left store outs m) = fold_left store outs m.
Proof.
  apply map_eq. intros k. rewrite !lookup_fold_store.
  destruct (last_write k outs); reflexivity.
Qed.

Lemma last_write_none (k : string) (outs : list (string * Cv2.Image)) :
  ~ In k (map fst outs) -> last_write k outs = None.
Proof.
  induction outs as [|kv outs IH]; intros H; [reflexivity|].
  cbn [last_write]. rewrite IH by (intros Hin; apply H; now right).
  destruct (decide (fst kv = k)) as [E|]; [|reflexivity].
  exfalso. apply H. now left.
Qed.

End StoreFacts.

Section AnnotateClaims.
Context {Exn : Type}.
Variable readtext : string -> Res Exn (list Detection).

Lemma outputs_paths (fs : gmap string Cv2.Image) (h : list Path) :
  detects readtext fs h ->
  map fst (outputs readtext fs h)
  = map (fun p => path_str (annotated_path p)) (List.filter (loaded fs) h).
Proof.
  induction h as [|p h IH]; intros Hd; [reflexivity|].
  unfold outputs in *. cbn [flat_map List.filter].
  rewrite map_app, IH by (intros q Hq; apply Hd; now right).
  pose proof (Hd p (or_introl eq_refl)) as Hok. unfold loaded in *.
  destruct (fs !! path_str p) as [img|]; [|reflexivity].
  destruct (readtext (path_str p)) as [ds|e];
    [reflexivity|now specialize (Hok eq_refl)].
Qed.

Lemma records_errors (fs : gmap string Cv2.Image) (h : list Path) :
  List.filter is_error (records fs h)
  = map (fun p => mkLog ERROR ("Could not read image " +:+ path_str p))
      (List.filter (fun p => negb (loaded fs p)) h).
Proof.
  induction h as [|p h IH]; [reflexivity|].
  unfold records in *. cbn [flat_map List.filter].
  rewrite List.filter_app, IH.
  destruct (loaded fs p); reflexivity.
Qed.

Lemma outputs_sources_kept (fs : gmap string Cv2.Image) (h : list Path)
  (p : Path) :
  sources_kept h -> In p h ->
  ~ In (path_str p) (map fst (outputs readtext fs h)).
Proof.
  intros Hk Hp Hin. apply in_map_iff in Hin.
  destruct Hin as [[k img] [Hk1 Hin]]. cbn in Hk1. subst k.
  unfold outputs in Hin. apply in_flat_map in Hin.
  destruct Hin as [q [Hq Hin]].
  destruct (fs !! path_str q); [|contradiction].
  destruct (readtext (path_str q)); [|contradiction].
  destruct Hin as [Hin|[]]. inversion Hin as [[Hpath Himg]].
  exact (Hk p q Hp Hq Hpath).
Qed.

(** C5, as the code has it.  When detection returns for the snapshots that
    load and no snapshot of the history is overwritten by an annotated
    image, the loop ends normally; it writes one image for each snapshot
    whose image loaded, in the order of the history, under the name of the
    snapshot prefixed with [annotated_] in the directory of the snapshot;
    and it logs one error for each snapshot whose image did not load, in
    order, and goes on.  An exception of the detection is not caught. *)
Theorem annotate_skips_unreadable
  (fs : gmap string Cv2.Image) (lg : list LogRecord) (h : list Path) :
  detects readtext fs h ->
  sources_kept h ->
  let r := annotate readtext h (mkAState (mkDisk fs []) lg) in
  fst r = Ok tt /\
  map fst (written (disk (snd r)))
  = map (fun p => parent p +:+ "/" +:+ "annotated_" +:+ name p)
      (List.filter (loaded fs) h) /\
  length (written (disk (snd r))) = length (List.filter (loaded fs) h) /\
  List.filter is_error (alogs (snd r))
  = (List.filter is_error lg
     ++ map (fun p => mkLog ERROR ("Could not read image " +:+ path_str p))
          (List.filter (fun p => negb (loaded fs p)) h))%list /\
  written (disk (snd r)) = outputs readtext fs h /\
  files (disk (snd r)) = fold_left store (outputs readtext fs h) fs.
Proof.
  intros Hd Hk r. subst r.
  rewrite (annotate_run readtext h (mkAState (mkDisk fs []) lg) Hd Hk).
  cbn [fst snd disk files written alogs app].
  split; [reflexivity|].
  split; [now rewrite outputs_paths|].
  split.
  { rewrite <- (length_map fst), outputs_paths by exact Hd.
    now rewrite length_map. }
  split; [now rewrite List.filter_app, records_errors|].
  split; reflexivity.
Qed.

(** C9. Drawing adds to an image the marks of the detections and nothing
    else, whatever the image.  When the loop is run a second time on the
    files that a first run left, with the same detections, it writes the
    same images under the same paths as the first run, and leaves the
    files as they were. *)
Theorem annotate_again_same_placements
  (fs : gmap string Cv2.Image) (lg : list LogRecord) (h : list Path) :
  detects readtext fs h ->
  sources_kept h ->
  let r1 := annotate readtext h (mkAState (mkDisk fs []) lg) in
  let r2 :=
    annotate readtext h
      (mkAState (mkDisk (files (disk (snd r1))) []) (alogs (snd r1))) in
  fst r1 = Ok tt /\ fst r2 = Ok tt /\
  written (disk (snd r2)) = written (disk (snd r1)) /\
  files (disk (snd r2)) = files (disk (snd r1)) /\
  Forall
    (fun out =>
       exists p src ds,
         In p h /\ fs !! path_str p = Some src /\
         readtext (path_str p) = Ok ds /\
         fst out = path_str (annotated_path p) /\
         Cv2.picture (snd out) = Cv2.picture src /\
         Cv2.marks (snd out)
         = (Cv2.marks src ++ flat_map placement ds)%list)
    (written (disk (snd r1))).
Proof.
  intros Hd Hk r1 r2. subst r1 r2.
  rewrite (annotate_run readtext h (mkAState (mkDisk fs []) lg) Hd Hk).
  cbn [fst snd disk files written alogs app].
  set (outs := outputs readtext fs h).
  set (fs1 := fold_left store outs fs).
  assert (Hsame : forall p, In p h -> fs1 !! path_str p = fs !! path_str p).
  { intros p Hp. subst fs1. rewrite lookup_fold_store.
    rewrite last_write_none; [reflexivity|].
    now apply outputs_sources_kept. }
  destruct (outputs_agree readtext fs fs1 h Hsame) as [Ho _].
  assert (Hd1 : detects readtext fs1 h).
  { intros p Hp Hl. apply Hd; [exact Hp|]. unfold loaded in *.
    now rewrite <- Hsame. }
  rewrite (annotate_run readtext h (mkAState (mkDisk fs1 []) _) Hd1 Hk).
  cbn [fst snd disk files written alogs app]. rewrite Ho. fold outs.
  split; [reflexivity|]. split; [reflexivity|]. split; [reflexivity|].
  split; [apply fold_store_twice|].
  apply List.Forall_forall. intros [k img] Hin. subst outs.
  unfold outputs in Hin. apply in_flat_map in Hin.
  destruct Hin as [p [Hp Hin]].
  destruct (fs !! path_str p) as [src|] eqn:Hsrc; [|contradiction].
  destruct (readtext (path_str p)) as [ds|e] eqn:Hr; [|contradiction].
  destruct Hin as [Hin|[]]. inversion Hin; subst k img.
  exists p, src, ds. rewrite draw_detections_marks.
  repeat split; assumption.
Qed.

End AnnotateClaims.

(** [int] keeps the order of the numbers. *)
Lemma py_int_le (x y : Num) : (x <= y)%Q -> (py_int x <= py_int y)%Z.
Proof.
  destruct x as [a b], y as [c d]. unfold Qle, py_int. cbn [Qnum Qden].
  intros H.
  rewrite <- (Z.quot_mul_cancel_r a (Z.pos b) (Z.pos d)) by lia.
  rewrite <- (Z.quot_mul_cancel_r c (Z.pos d) (Z.pos b)) by lia.
  rewrite (Z.mul_comm (Z.pos d) (Z.pos b)).
  apply Z.quot_le_mono; lia.
Qed.

(** C7, as the code has it.  For each detection the loop draws a green
    rectangle between the first and the third corner point, each
    coordinate cut to an integer toward zero, and then the text at the
    same abscissa, 10 pixels above the first of the two corners; corner
    points with integer coordinates are used as they are.  When the first
    corner point is not to the right of nor below the third one, the first
    drawn corner is the top-left corner of the rectangle, the second one
    its bottom-right corner, and the text lies above its top edge.  For
    the corners (10,10), (50,10), (50,30), (10,30) and the text OK this is
    the rectangle with top-left (10,10) and bottom-right (50,30) and the
    text at (10,0), above its top edge. *)
Theorem detection_is_drawn_from_two_corners
  (img : Cv2.Image) (ds : list Detection) (d : Detection) :
  let tl := (py_int (fst (bbox0 d)), py_int (snd (bbox0 d))) in
  let br := (py_int (fst (bbox2 d)), py_int (snd (bbox2 d))) in
  Cv2.marks (draw_detections img (ds ++ [d]))
  = (Cv2.marks (draw_detections img ds)
     ++ [ Cv2.Rectangle tl br (0, 255, 0)%Z 2%Z;
          Cv2.PutText (text d) (fst tl, (snd tl - 10)%Z)
            Cv2.FONT_HERSHEY_SIMPLEX (6 # 10)%Q (0, 255, 0)%Z 2%Z ])%list /\
  (forall a : Z, py_int (inject_Z a) = a) /\
  (forall x : Num,
     py_int x
     = (Z.sgn (Qnum x) * (Z.abs (Qnum x) / Z.pos (Qden x)))%Z) /\
  ((fst (bbox0 d) <= fst (bbox2 d))%Q ->
   (snd (bbox0 d) <= snd (bbox2 d))%Q ->
   top_left tl br = tl /\ bottom_right tl br = br /\
   above_top_edge (fst tl, (snd tl - 10)%Z) tl br) /\
  let ok :=
    mkDetection
      ((inject_Z 10, inject_Z 10), (inject_Z 50, inject_Z 10),
       (inject_Z 50, inject_Z 30), (inject_Z 10, inject_Z 30))
      "OK" (9 # 10)%Q in
  Cv2.marks (draw_detections img [ok])
  = (Cv2.marks img
     ++ [ Cv2.Rectangle (10, 10)%Z (50, 30)%Z (0, 255, 0)%Z 2%Z;
          Cv2.PutText "OK" (10, 0)%Z Cv2.FONT_HERSHEY_SIMPLEX (6 # 10)%Q
            (0, 255, 0)%Z 2%Z ])%list /\
  top_left (10, 10)%Z (50, 30)%Z = (10, 10)%Z /\
  bottom_right (10, 10)%Z (50, 30)%Z = (50, 30)%Z /\
  above_top_edge (10, 0)%Z (10, 10)%Z (50, 30)%Z.
Proof.
  intros tl br. split.
  { rewrite !draw_detections_marks. cbn [Cv2.marks].
    rewrite flat_map_app. cbn [flat_map]. rewrite app_nil_r.
    unfold placement. cbn [fst snd]. now rewrite app_assoc. }
  split.
  { intros a. unfold py_int. cbn. apply Z.quot_1_r. }
  split.
  { intros x. unfold py_int. rewrite Z.quot_div by lia.
    change (Z.sgn (Z.pos (Qden x))) with 1%Z.
    change (Z.abs (Z.pos (Qden x))) with (Z.pos (Qden x)).
    now rewrite Z.mul_1_r. }
  split.
  { intros Hx Hy. apply py_int_le in Hx, Hy.
    unfold above_top_edge, top_left, bottom_right, tl, br. cbn [fst snd].
    rewrite !Z.min_l, !Z.max_r by assumption.
    split; [reflexivity|]. split; [reflexivity|lia]. }
  intros ok. rewrite draw_detections_marks.
  split; [reflexivity|]. split; [reflexivity|]. split; reflexivity.
Qed.

(* ===================================================================== *)
(** * The claims on concrete runs *)
(* ===================================================================== *)

(** The scripted sequence on a session that answers every call. *)
Lemma scenario_history_witness :
  __init__ Mock.remote "screenshots" (Mock.world0 [] [])
  = Ok (Mock.fresh [] []) /\
  exists t1 t2 t3 t4 : DateTime,
    history (self (snd (scenario Mock.remote "#box" (Mock.fresh [] []))))
    = [ path_div "screenshots"
          (artifact_name 1 t1 (Some "before_get_https://example.test"));
        path_div "screenshots" (artifact_name 2 t2 (Some "box"));
        path_div "screenshots" (artifact_name 3 t3 (Some "box"));
        path_div "screenshots" (artifact_name 4 t4 (Some "before_quit")) ] /\
    map sequence_number
      (history (self (snd (scenario Mock.remote "#box" (Mock.fresh [] [])))))
    = [Some 1; Some 2; Some 3; Some 4] /\
    map name
      (history (self (snd (scenario Mock.remote "#box" (Mock.fresh [] [])))))
    = [ "0001_" +:+ timestamp t1 +:+ "_before_get_https___example_test.png";
        "0002_" +:+ timestamp t2 +:+ "_box.png";
        "0003_" +:+ timestamp t3 +:+ "_box.png";
        "0004_" +:+ timestamp t4 +:+ "_before_quit.png" ].
Proof.
  split; [reflexivity|].
  apply (scenario_history Mock.remote "screenshots" (Mock.world0 [] [])
           (Mock.fresh [] []) _ "#box" true).
  - reflexivity.
  - vm_compute. reflexivity.
Defined.

(** Seven calls, three of them session-level interceptions, one of which
    raises in its delegate: five snapshots, numbered 1 to 5. *)
Lemma history_numbered_witness :
  captures_ok Mock.remote Runs.calls Runs.lookup_fails /\
  length (List.filter session_intercepted Runs.calls) = 3 /\
  let h := history (self (run_calls Mock.remote Runs.calls Runs.lookup_fails))
  in
  3 <= length h /\
  length h = 5 /\
  map sequence_number h = [Some 1; Some 2; Some 3; Some 4; Some 5].
Proof.
  assert (H : captures_ok Mock.remote Runs.calls Runs.lookup_fails).
  { vm_compute. repeat split. }
  split; [exact H|]. split; [reflexivity|].
  pose proof (history_numbered_in_call_order Mock.remote "screenshots"
                (Mock.world0 [] [false; false; true]) Runs.lookup_fails
                Runs.calls eq_refl H) as T.
  cbv zeta in T. destruct T as (T1 & T2 & T3).
  cbv zeta. split; [exact T1|]. split; [exact T2|].
  rewrite T3, T2. reflexivity.
Defined.

(** Reading an attribute through the proxy. *)
Lemma forwarded_call_witness :
  intercepted (@CGetattr string string "title") = false /\
  history (self (snd (issue Mock.remote (CGetattr "title") (Mock.fresh [] []))))
  = [] /\
  fst (issue Mock.remote (CGetattr "title") (Mock.fresh [] []))
  = fst (delegate Mock.remote (CGetattr "title") (Mock.world0 [] [])).
Proof.
  split; [reflexivity|].
  destruct (forwarded_call_is_transparent Mock.remote (CGetattr "title")
              (Mock.fresh [] []) eq_refl) as (H1 & _ & _ & H4 & _).
  split; [exact H1|]. rewrite H4. reflexivity.
Defined.

(** Navigation on a session that cannot be reached. *)
Lemma delegate_exception_witness :
  let c := @CGet string string "https://down.test" in
  let p := path_div "screenshots"
             "0001_20261103_143305_123_before_get_https___down_test.png" in
  intercepted c = true /\
  fst (screenshot Mock.remote (capture_label c) Runs.unreachable) = Ok p /\
  fst (issue Mock.remote c Runs.unreachable)
  = Raise "failed: get https://down.test" /\
  history (self (snd (issue Mock.remote c Runs.unreachable))) = [p].
Proof.
  intros c p. split; [reflexivity|]. split; [vm_compute; reflexivity|].
  destruct (delegate_exception_propagates Mock.remote c Runs.unreachable
              (snd (screenshot Mock.remote (capture_label c) Runs.unreachable))
              p "failed: get https://down.test" eq_refl)
    as (H1 & H2 & _).
  - vm_compute. reflexivity.
  - vm_compute. reflexivity.
  - split; [exact H1|exact H2].
Defined.

(** C4 fails as stated: one call of [_next_name] changes the counter of
    the store. *)
Lemma next_name_changes_counter :
  _counter (self (Mock.fresh [] [])) = 0 /\
  _counter (self (snd (_next_name Mock.remote None (Mock.fresh [] [])))) = 1 /\
  self (snd (_next_name Mock.remote None (Mock.fresh [] [])))
  <> self (Mock.fresh [] []).
Proof.
  split; [reflexivity|]. split; [reflexivity|].
  vm_compute. discriminate.
Qed.

(** C8 fails as stated: a label that is present and empty is not
    sanitised to the empty label part, it is replaced by [action]. *)
Lemma empty_label_named_action :
  fst (_next_name Mock.remote (Some "") (Mock.fresh [] []))
  = Ok (path_div "screenshots" "0001_20261103_143305_123_action.png") /\
  Spec.name 1 (fst (now Mock.remote (Mock.world0 [] []))) (Some "")
  = "0001_20261103_143305_123_.png" /\
  fst (_next_name Mock.remote (Some "") (Mock.fresh [] []))
  <> Ok (path_div "screenshots"
           (Spec.name 1 (fst (now Mock.remote (Mock.world0 [] [])))
              (Some ""))).
Proof.
  split; [vm_compute; reflexivity|]. split; [vm_compute; reflexivity|].
  vm_compute. discriminate.
Qed.

(** C10 fails as stated: after a capture that failed, the next capture
    that succeeds is numbered 3 while the last recorded snapshot is
    numbered 1. *)
Lemma number_after_failure_is_not_successor :
  let s1 := snd (screenshot Mock.remote (Some "a") Runs.second_shot_fails) in
  let s2 := snd (screenshot Mock.remote (Some "b") s1) in
  let r3 := screenshot Mock.remote (Some "c") s2 in
  map sequence_number (history (self s1)) = [Some 1] /\
  fst (screenshot Mock.remote (Some "b") s1) = Raise "render failed" /\
  history (self s2) = history (self s1) /\
  (exists p, fst r3 = Ok p /\ sequence_number p = Some 3) /\
  ~ (exists p q n,
       fst r3 = Ok p /\ last (history (self s2)) = Some q /\
       sequence_number q = Some n /\ sequence_number p = Some (n + 1)).
Proof.
  cbv zeta. split; [vm_compute; reflexivity|].
  split; [vm_compute; reflexivity|]. split; [vm_compute; reflexivity|].
  split.
  - eexists. split; vm_compute; reflexivity.
  - intros (p & q & n & Hp & Hq & Hn & Hpn).
    vm_compute in Hp. inversion Hp; subst p; clear Hp.
    vm_compute in Hq. inversion Hq; subst q; clear Hq.
    vm_compute in Hn. inversion Hn; subst n; clear Hn.
    vm_compute in Hpn. discriminate Hpn.
Qed.

(** The reader returns on every snapshot. *)
Lemma shots_detects : detects Shots.reader Shots.on_disk Shots.taken.
Proof.
  intros p Hp _. destruct Hp as [<-|[<-|[<-|[]]]]; reflexivity.
Defined.

(** No snapshot has the path of an annotated image. *)
Lemma shots_sources_kept : sources_kept Shots.taken.
Proof.
  intros p q Hp Hq.
  destruct Hp as [<-|[<-|[<-|[]]]]; destruct Hq as [<-|[<-|[<-|[]]]];
    vm_compute; discriminate.
Defined.

(** C5 fails as stated: with the three snapshots of the claim, the second
    one unreadable, and a reader that raises on the third, two images
    load and one annotated image is written; the loop raises the
    exception of the reader. *)
Lemma raising_reader_writes_fewer_images :
  let r := annotate MockFaults.broken_reader Shots.taken
             (mkAState (mkDisk Shots.on_disk []) []) in
  map (loaded Shots.on_disk) Shots.taken = [true; false; true] /\
  length (List.filter (loaded Shots.on_disk) Shots.taken) = 2 /\
  fst r = Raise "ocr failed" /\
  map fst (written (disk (snd r)))
  = [ "screenshots/annotated_"
      +:+ "0001_20261103_143305_123_before_get_https___example_test.png" ] /\
  length (written (disk (snd r)))
  <> length (List.filter (loaded Shots.on_disk) Shots.taken).
Proof.
  cbv zeta. split; [vm_compute; reflexivity|].
  split; [vm_compute; reflexivity|]. split; [vm_compute; reflexivity|].
  split; [vm_compute; reflexivity|]. vm_compute. discriminate.
Qed.

(** Three snapshots, the second one unreadable: two annotated images, one
    error. *)
Lemma annotate_skips_unreadable_witness :
  loaded Shots.on_disk Shots.second = false /\
  let r := annotate Shots.reader Shots.taken
             (mkAState (mkDisk Shots.on_disk []) []) in
  fst r = Ok tt /\
  map fst (written (disk (snd r)))
  = [ "screenshots/annotated_"
      +:+ "0001_20261103_143305_123_before_get_https___example_test.png";
      "screenshots/annotated_0003_20261103_143305_623_box.png" ] /\
  length (written (disk (snd r))) = 2 /\
  List.filter is_error (alogs (snd r))
  = [ mkLog ERROR
        "Could not read image screenshots/0002_20261103_143305_373_box.png" ].
Proof.
  split; [reflexivity|].
  pose proof (annotate_skips_unreadable Shots.reader Shots.on_disk []
                Shots.taken shots_detects shots_sources_kept) as T.
  cbv zeta in T. destruct T as (T1 & T2 & T3 & T4 & _).
  cbv zeta. split; [exact T1|]. split; [rewrite T2; reflexivity|].
  split; [rewrite T3; reflexivity|]. rewrite T4. reflexivity.
Defined.

(** The same three snapshots, annotated twice. *)
Lemma annotate_again_witness :
  let r1 := annotate Shots.reader Shots.taken
              (mkAState (mkDisk Shots.on_disk []) []) in
  let r2 := annotate Shots.reader Shots.taken
              (mkAState (mkDisk (files (disk (snd r1))) []) (alogs (snd r1)))
  in
  written (disk (snd r2)) = written (disk (snd r1)) /\
  files (disk (snd r2)) = files (disk (snd r1)) /\
  map (fun out => Cv2.marks (snd out)) (written (disk (snd r1)))
  = [ [ Cv2.Rectangle (10, 10)%Z (50, 30)%Z (0, 255, 0)%Z 2%Z;
        Cv2.PutText "OK" (10, 0)%Z Cv2.FONT_HERSHEY_SIMPLEX (6 # 10)%Q
          (0, 255, 0)%Z 2%Z ];
      [] ].
Proof.
  pose proof (annotate_again_same_placements Shots.reader Shots.on_disk []
                Shots.taken shots_detects shots_sources_kept) as T.
  cbv zeta in T. destruct T as (_ & _ & T3 & T4 & _).
  cbv zeta. split; [exact T3|]. split; [exact T4|]. reflexivity.
Defined.

(** C7 fails as stated, in two ways.  For a detection whose first corner
    is (10.5, 10.5), the rectangle starts at (10, 10), which is not that
    corner point.  For a detection whose corners are listed from the
    bottom-right one, (50,30), (10,30), (10,10), (50,10), the top-left
    corner of the rectangle is the third corner point, not the first, and
    the text, at (50,20), is below the top edge of the rectangle. *)
Lemma rectangle_corner_is_truncated :
  bbox0 Shots.tilted_box = ((21 # 2)%Q, (21 # 2)%Q) /\
  nth_error
    (Cv2.marks (draw_detections (Cv2.mkImage "landing page" [])
                  [Shots.tilted_box])) 0
  = Some (Cv2.Rectangle (10, 10)%Z (50, 30)%Z (0, 255, 0)%Z 2%Z) /\
  ~ at_point (10, 10)%Z (bbox0 Shots.tilted_box) /\
  ~ at_point (50, 30)%Z (bbox2 Shots.tilted_box) /\
  Cv2.marks (draw_detections (Cv2.mkImage "landing page" [])
               [Shots.reversed_box])
  = [ Cv2.Rectangle (50, 30)%Z (10, 10)%Z (0, 255, 0)%Z 2%Z;
      Cv2.PutText "OK" (50, 20)%Z Cv2.FONT_HERSHEY_SIMPLEX (6 # 10)%Q
        (0, 255, 0)%Z 2%Z ] /\
  top_left (50, 30)%Z (10, 10)%Z = (10, 10)%Z /\
  at_point (top_left (50, 30)%Z (10, 10)%Z) (bbox2 Shots.reversed_box) /\
  ~ at_point (top_left (50, 30)%Z (10, 10)%Z) (bbox0 Shots.reversed_box) /\
  ~ above_top_edge (50, 20)%Z (50, 30)%Z (10, 10)%Z.
Proof.
  split; [reflexivity|]. split; [reflexivity|].
  split; [intros [H _]; vm_compute in H; discriminate H|].
  split; [intros [H _]; vm_compute in H; discriminate H|].
  split; [reflexivity|]. split; [reflexivity|].
  split; [split; reflexivity|].
  split; [intros [H _]; vm_compute in H; discriminate H|].
  intros H. vm_compute in H. discriminate H.
Qed.

(* ===================================================================== *)
(** * Any run of calls, whatever raises *)
(* ===================================================================== *)

Section RunFacts.
Context {World Elem Value Args Exn : Type}.
Variable R : Remote World Elem Value Args Exn.

Local Abbreviation State := (St World).

(** The three ways a call can leave the proxy: forwarded, intercepted with
    a capture that raised, intercepted with a capture that returned. *)
Lemma issue_cases (c : Call) (s : State) :
  (capture_label c = None /\
   self (snd (issue R c s)) = self s /\
   logs (snd (issue R c s)) = logs s) \/
  (exists l,
     capture_label c = Some l /\
     is_ok (fst (screenshot R (Some l) s)) = false /\
     self (snd (issue R c s)) = self (named R s) /\
     logs (snd (issue R c s)) = logs s) \/
  (exists l w,
     capture_label c = Some l /\
     is_ok (fst (screenshot R (Some l) s)) = true /\
     self (snd (issue R c s)) = self (captured R s (Some l) w) /\
     logs (snd (issue R c s)) = logs (captured R s (Some l) w)).
Proof.
  destruct (capture_label c) as [l|] eqn:Hl.
  - right. rewrite (issue_intercepted R c l s Hl).
    pose proof (screenshot_run R (Some l) s) as Hrun.
    destruct (save_screenshot R _ _) as [[v|e] w].
    + right. exists l, w. rewrite Hrun. repeat split.
    + left. exists l. rewrite Hrun. repeat split.
  - left. rewrite (issue_forwarded R c s Hl). repeat split.
Qed.

Lemma intercepted_iff_label (c : @Call Elem Args) :
  intercepted c = match capture_label c with Some _ => true | None => false end.
Proof. destruct c; reflexivity. Qed.

Lemma run_calls_cons (c : Call) (cs : list Call) (s : State) :
  run_calls R (c :: cs) s = run_calls R cs (snd (issue R c s)).
Proof. reflexivity. Qed.

Lemma increasing_below_weaken (b b' : nat) (l : list (option nat)) :
  b <= b' -> increasing_below b l -> increasing_below b' l.
Proof.
  intros Hb. induction l as [|[n|] l IH]; cbn; [trivial| |trivial].
  intros (Hn & Hall & Hrest). repeat split; [lia|lia|exact Hall|auto].
Qed.

Lemma increasing_below_snoc (b : nat) (l : list (option nat)) :
  increasing_below b l ->
  increasing_below (S b) (l ++ [Some (S b)]).
Proof.
  induction l as [|[n|] l IH]; cbn.
  - intros _. repeat split; [lia|lia|constructor].
  - intros (Hn & Hall & Hrest). repeat split; [lia|lia| |auto].
    apply List.Forall_app. split; [exact Hall|].
    constructor; [lia|constructor].
  - intros [].
Qed.

Lemma increasing_below_bound (b : nat) (l : list (option nat))
  (j : nat) (y : option nat) :
  increasing_below b l -> l !! j = Some y ->
  exists n, y = Some n /\ 1 <= n <= b.
Proof.
  revert j. induction l as [|[k|] l IH]; intros j H Hj.
  - discriminate Hj.
  - destruct H as (Hk & _ & Hrest). destruct j as [|j].
    + cbn in Hj. inversion Hj; subst y. eauto.
    + cbn in Hj. apply (IH j Hrest Hj).
  - destruct H.
Qed.

Lemma increasing_below_lookup (b : nat) (l : list (option nat))
  (i j : nat) (x y : option nat) :
  increasing_below b l -> i < j ->
  l !! i = Some x -> l !! j = Some y ->
  exists m n, x = Some m /\ y = Some n /\ 1 <= m /\ m < n /\ n <= b.
Proof.
  revert i j. induction l as [|[k|] l IH]; intros i j H Hij Hi Hj.
  - discriminate Hi.
  - destruct H as (Hk & Hall & Hrest).
    destruct j as [|j]; [lia|]. cbn in Hj.
    destruct i as [|i].
    + cbn in Hi. inversion Hi; subst x.
      destruct (increasing_below_bound b l j y Hrest Hj) as (n & -> & Hn).
      pose proof (proj1 (List.Forall_forall _ _) Hall (Some n)
                    (proj1 (list_elem_of_In _ _)
                       (list_elem_of_lookup_2 _ _ _ Hj))) as Hlt.
      cbn in Hlt. exists k, n. repeat split; lia.
    + cbn in Hi. apply (IH i j Hrest); [lia|exact Hi|exact Hj].
  - destruct H.
Qed.

Lemma increasing_below_NoDup (b : nat) (h : list Path) :
  increasing_below b (map sequence_number h) -> NoDup h.
Proof.
  induction h as [|p h IH]; cbn [map]; intros H; [constructor|].
  destruct (sequence_number p) as [n|] eqn:Hp; [|destruct H].
  destruct H as (_ & Hall & Hrest). constructor; [|auto].
  intros Hin. apply list_elem_of_In in Hin.
  pose proof (proj1 (List.Forall_forall _ _) Hall (sequence_number p)
                (in_map sequence_number h p Hin)) as Hlt.
  rewrite Hp in Hlt. lia.
Qed.

Lemma issue_trailed (c : Call) (s : State) :
  trailed s -> trailed (snd (issue R c s)).
Proof.
  intros [Hinc Hlog]. unfold trailed.
  destruct (issue_cases c s)
    as [(_ & Hs & Hl)|[(l & _ & _ & Hs & Hl)|(l & w & _ & _ & Hs & Hl)]];
    rewrite Hs, Hl.
  - split; assumption.
  - cbn [named self _counter history]. split; [|exact Hlog].
    apply (increasing_below_weaken (_counter (self s))); [lia|exact Hinc].
  - cbn [captured self _counter history logs]. split.
    + rewrite map_app. cbn [map].
      rewrite (sequence_number_shot_path R).
      now apply increasing_below_snoc.
    + rewrite map_app, Hlog. reflexivity.
Qed.

Lemma run_calls_trailed (cs : list Call) (s : State) :
  trailed s -> trailed (run_calls R cs s).
Proof.
  revert s. induction cs as [|c cs IH]; intros s H; [exact H|].
  rewrite run_calls_cons. apply IH. now apply issue_trailed.
Qed.

Lemma init_trailed (dir : string) (w : World) (s0 : State) :
  __init__ R dir w = Ok s0 -> trailed s0.
Proof.
  intros H. destruct (init_numbered R dir w s0 H) as (_ & Hs & Hl).
  unfold trailed. rewrite Hs, Hl. cbn. split; [trivial|reflexivity].
Qed.

Lemma issue_counts (c : Call) (s : State) :
  _counter (self (snd (issue R c s)))
  = _counter (self s) + (if intercepted c then 1 else 0) /\
  length (history (self (snd (issue R c s))))
  + failed_captures R [c] s
  = length (history (self s)) + (if intercepted c then 1 else 0) /\
  out_dir (self (snd (issue R c s))) = out_dir (self s) /\
  exists added,
    history (self (snd (issue R c s))) = (history (self s) ++ added)%list /\
    length added <= 1.
Proof.
  rewrite intercepted_iff_label. cbn [failed_captures].
  destruct (issue_cases c s)
    as [(Hc & Hs & _)|[(l & Hc & Hf & Hs & _)|(l & w & Hc & Hf & Hs & _)]];
    rewrite Hs, Hc; try rewrite Hf.
  - refine (conj _ (conj _ (conj eq_refl _))); try lia.
    exists []. split; [now rewrite app_nil_r|cbn; lia].
  - cbn [named self _counter history out_dir].
    refine (conj _ (conj _ (conj eq_refl _))); try lia.
    exists []. split; [now rewrite app_nil_r|cbn; lia].
  - cbn [captured self _counter history out_dir]. rewrite length_app.
    cbn [length]. refine (conj _ (conj _ (conj eq_refl _))); try lia.
    eexists. split; [reflexivity|]. cbn. lia.
Qed.

Lemma run_calls_counts (cs : list Call) (s : State) :
  _counter (self (run_calls R cs s))
  = _counter (self s) + length (List.filter intercepted cs) /\
  length (history (self (run_calls R cs s))) + failed_captures R cs s
  = length (history (self s)) + length (List.filter intercepted cs) /\
  out_dir (self (run_calls R cs s)) = out_dir (self s) /\
  exists added,
    history (self (run_calls R cs s)) = (history (self s) ++ added)%list /\
    length added <= length (List.filter intercepted cs).
Proof.
  revert s. induction cs as [|c cs IH]; intros s.
  - cbn. refine (conj _ (conj _ (conj eq_refl _))); try lia.
    exists []. split; [now rewrite app_nil_r|cbn; lia].
  - rewrite run_calls_cons.
    destruct (issue_counts c s) as (H1 & H2 & H3 & a1 & H4 & H5).
    destruct (IH (snd (issue R c s))) as (I1 & I2 & I3 & a2 & I4 & I5).
    cbn [failed_captures] in *. rewrite Nat.add_0_r in H2.
    cbn [List.filter]. rewrite I1, I3, H1, H3, I4, H4.
    assert (length (if intercepted c then c :: List.filter intercepted cs
                    else List.filter intercepted cs)
            = (if intercepted c then 1 else 0)
              + length (List.filter intercepted cs)) as ->
      by (destruct (intercepted c); reflexivity).
    rewrite I4, H4 in I2. rewrite H4 in H2. rewrite !length_app in *.
    split; [lia|]. split; [lia|]. split; [reflexivity|].
    exists (a1 ++ a2)%list. rewrite length_app, app_assoc.
    split; [reflexivity|lia].
Qed.

End RunFacts.

Section GapClaim.
Context {World Elem Value Args Exn : Type}.
Variable R : Remote World Elem Value Args Exn.

Local Abbreviation State := (St World).

Lemma screenshot_ok_save (label : option string) (s : State) :
  is_ok (fst (screenshot R label s))
  = is_ok (fst (save_screenshot R (path_str (shot_path R s label))
                  (world (named R s)))).
Proof.
  rewrite screenshot_run.
  destruct (save_screenshot R _ _) as [[v|e] w]; reflexivity.
Qed.

(** A call whose capture fails moves the counter on and nothing else of
    the proxy. *)
Lemma issue_capture_fails (c : Call) (s : State) :
  capture_fails R c s ->
  history (self (snd (issue R c s))) = history (self s) /\
  out_dir (self (snd (issue R c s))) = out_dir (self s) /\
  _counter (self (snd (issue R c s)))
  = _counter (self s) + (if intercepted c then 1 else 0) /\
  logs (snd (issue R c s)) = logs s.
Proof.
  unfold capture_fails. rewrite intercepted_iff_label.
  destruct (issue_cases R c s)
    as [(Hc & Hs & Hl)|[(l & Hc & Hf & Hs & Hl)|(l & w & Hc & Hf & Hs & Hl)]];
    rewrite Hc, Hs, Hl.
  - intros _. repeat split. lia.
  - intros _. cbn [named self history out_dir _counter]. repeat split. lia.
  - intros Hfail. rewrite screenshot_ok_save, Hfail in Hf. discriminate Hf.
Qed.

Lemma run_calls_capture_fails (cs : list Call) (s : State) :
  captures_fail R cs s ->
  history (self (run_calls R cs s)) = history (self s) /\
  out_dir (self (run_calls R cs s)) = out_dir (self s) /\
  _counter (self (run_calls R cs s))
  = _counter (self s) + length (List.filter intercepted cs) /\
  logs (run_calls R cs s) = logs s.
Proof.
  revert s. induction cs as [|c cs IH]; intros s H.
  - cbn. repeat split. lia.
  - destruct H as [Hc Hcs]. rewrite run_calls_cons.
    destruct (IH _ Hcs) as (H1 & H2 & H3 & H4).
    destruct (issue_capture_fails c s Hc) as (G1 & G2 & G3 & G4).
    rewrite H1, H2, H3, H4, G1, G2, G3, G4. cbn [List.filter].
    destruct (intercepted c); cbn [length]; repeat split; lia.
Qed.

(** C10, as the code has it.  When [save_screenshot] raises, the capture
    raises the same exception, the history and the log are as before, and
    the counter has moved on by one.  So after a snapshot [q] was recorded
    and the captures of [k] later calls failed, whatever the session did
    in between, [q] is still the last snapshot of the history, and the
    next capture that succeeds is numbered [k + 1] above [q]: two above
    after one failure, three above after two.  [k] numbers are missing
    from the history. *)
Theorem failed_capture_leaves_gap
  (label0 label' : option string) (s0 s : State) (q p : Path)
  (cs : list Call) :
  fst (screenshot R label0 s0) = Ok q ->
  self s = self (snd (screenshot R label0 s0)) ->
  captures_fail R cs s ->
  fst (screenshot R label' (run_calls R cs s)) = Ok p ->
  let k := length (List.filter intercepted cs) in
  (forall (label : option string) (s' : State) (e : Exn),
     fst (save_screenshot R (path_str (shot_path R s' label))
            (world (named R s'))) = Raise e ->
     fst (screenshot R label s') = Raise e /\
     history (self (snd (screenshot R label s'))) = history (self s') /\
     logs (snd (screenshot R label s')) = logs s' /\
     _counter (self (snd (screenshot R label s')))
     = S (_counter (self s'))) /\
  history (self (run_calls R cs s)) = (history (self s0) ++ [q])%list /\
  last (history (self (run_calls R cs s))) = Some q /\
  _counter (self (run_calls R cs s)) = _counter (self s0) + 1 + k /\
  sequence_number q = Some (_counter (self s0) + 1) /\
  sequence_number p = Some (_counter (self s0) + 1 + k + 1) /\
  history (self (snd (screenshot R label' (run_calls R cs s))))
  = (history (self s0) ++ [q; p])%list.
Proof.
  intros Hq Hs Hcs Hp k. subst k. split.
  { intros label s' e Hfail. rewrite screenshot_run.
    destruct (save_screenshot R _ _) as [[v|e'] w]; [discriminate Hfail|].
    cbn [fst] in Hfail. inversion Hfail; subst e'.
    cbn [fst snd self named history logs _counter]. repeat split. }
  destruct (run_calls_capture_fails cs s Hcs) as (H1 & _ & H3 & _).
  rewrite screenshot_run in Hq, Hs.
  destruct (save_screenshot R _ (world (named R s0))) as [[v|e] w];
    [|discriminate Hq].
  cbn [fst snd] in Hq, Hs. inversion Hq; subst q. clear Hq.
  rewrite Hs in H1, H3. cbn [captured self history _counter] in H1, H3.
  rewrite screenshot_run in Hp |- *.
  destruct (save_screenshot R _ (world (named R (run_calls R cs s))))
    as [[v'|e'] w']; [|discriminate Hp].
  cbn [fst snd] in Hp |- *. inversion Hp; subst p. clear Hp.
  rewrite !sequence_number_shot_path.
  cbn [captured self history]. rewrite H1, H3, last_snoc, <- app_assoc.
  repeat split; f_equal; lia.
Qed.

End GapClaim.

(** One snapshot, then a lookup and a close whose captures fail, then a
    snapshot: the history is numbered 1, 4. *)
Lemma failed_capture_witness :
  let s0 := Runs.two_shots_fail in
  let s := snd (issue Mock.remote (CGet "https://a.test") s0) in
  let s2 := run_calls Mock.remote Runs.failing_calls s in
  captures_fail Mock.remote Runs.failing_calls s /\
  length (List.filter intercepted Runs.failing_calls) = 2 /\
  _counter (self s2) = 3 /\
  map sequence_number
    (history (self (snd (screenshot Mock.remote (Some "c") s2))))
  = [Some 1; Some 4].
Proof.
  intros s0 s s2.
  assert (Hf : captures_fail Mock.remote Runs.failing_calls s).
  { vm_compute. repeat split. }
  split; [exact Hf|]. split; [reflexivity|].
  destruct (failed_capture_leaves_gap Mock.remote
              (Some "before_get_https://a.test") (Some "c") s0 s
              (shot_path Mock.remote s0 (Some "before_get_https://a.test"))
              (shot_path Mock.remote s2 (Some "c"))
              Runs.failing_calls)
    as (_ & _ & _ & H3 & H4 & H5 & H6).
  - vm_compute. reflexivity.
  - vm_compute. reflexivity.
  - exact Hf.
  - vm_compute. reflexivity.
  - subst s2. split; [rewrite H3; reflexivity|].
    rewrite H6, map_app. cbn [map]. rewrite H4, H5. reflexivity.
Defined.

Section RunProperties.
Context {World Elem Value Args Exn : Type}.
Variable R : Remote World Elem Value Args Exn.

Local Abbreviation State := (St World).

(** X1. Whatever the calls issued on a fresh proxy and whatever raised, no
    two snapshots of the history have the same path, and a snapshot
    recorded later carries a larger sequence number, between 1 and the
    counter. *)
Theorem snapshots_never_share_a_path
  (dir : string) (w : World) (s0 : State) (cs : list Call) :
  __init__ R dir w = Ok s0 ->
  let s := run_calls R cs s0 in
  NoDup (history (self s)) /\
  forall (i j : nat) (p q : Path),
    i < j ->
    history (self s) !! i = Some p ->
    history (self s) !! j = Some q ->
    exists m n,
      sequence_number p = Some m /\ sequence_number q = Some n /\
      1 <= m /\ m < n /\ n <= _counter (self s).
Proof.
  intros Hinit s.
  destruct (run_calls_trailed R cs s0 (init_trailed R dir w s0 Hinit))
    as [Hinc _].
  fold s in Hinc. split.
  - exact (increasing_below_NoDup _ _ Hinc).
  - intros i j p q Hij Hp Hq.
    apply (increasing_below_lookup _ _ i j _ _ Hinc Hij);
      rewrite list_lookup_fmap; [now rewrite Hp|now rewrite Hq].
Qed.

(** X2. After any calls on a fresh proxy the counter is the number of
    intercepted calls that were issued, whether they returned or raised,
    and the history is shorter than the counter by the number of captures
    that raised. *)
Theorem counter_counts_intercepted_calls
  (dir : string) (w : World) (s0 : State) (cs : list Call) :
  __init__ R dir w = Ok s0 ->
  let s := run_calls R cs s0 in
  _counter (self s) = length (List.filter intercepted cs) /\
  length (history (self s)) + failed_captures R cs s0 = _counter (self s).
Proof.
  intros Hinit s. subst s.
  destruct (init_numbered R dir w s0 Hinit) as (_ & Hself & _).
  destruct (run_calls_counts R cs s0) as (H1 & H2 & _).
  rewrite Hself in H1, H2. cbn [_counter history length] in H1, H2.
  split; lia.
Qed.

(** X3. From any state, a run of calls only appends to the history, at
    most one snapshot per intercepted call; it never removes or reorders
    snapshots, never lowers the counter and never changes the directory. *)
Theorem history_is_append_only (cs : list Call) (s : State) :
  out_dir (self (run_calls R cs s)) = out_dir (self s) /\
  _counter (self s) <= _counter (self (run_calls R cs s)) /\
  exists added : list Path,
    history (self (run_calls R cs s)) = (history (self s) ++ added)%list /\
    length added <= length (List.filter intercepted cs).
Proof.
  destruct (run_calls_counts R cs s) as (H1 & _ & H3 & H4).
  split; [exact H3|]. split; [lia|exact H4].
Qed.

(** X4. After any calls on a fresh proxy the log holds exactly one INFO
    record [Saved screenshot: <path>] for each snapshot of the history, in
    the order of the history: a capture that raised logs nothing. *)
Theorem log_has_one_record_per_snapshot
  (dir : string) (w : World) (s0 : State) (cs : list Call) :
  __init__ R dir w = Ok s0 ->
  logs (run_calls R cs s0)
  = map (fun p => mkLog INFO ("Saved screenshot: " +:+ path_str p))
      (history (self (run_calls R cs s0))).
Proof.
  intros Hinit.
  exact (proj2 (run_calls_trailed R cs s0 (init_trailed R dir w s0 Hinit))).
Qed.

End RunProperties.


(* ===================================================================== *)
(** * The characters and the order of snapshot names *)
(* ===================================================================== *)

Module NameOrder.
Import PyStr PyStrFacts NameFacts.

Lemma every_mono (p q : ascii -> bool) (s : string) :
  (forall c, p c = true -> q c = true) ->
  every p s = true -> every q s = true.
Proof.
  intros Hpq. induction s as [|c s IH]; [reflexivity|].
  cbn [every]. intros H. apply andb_true_iff in H. destruct H as [Hc Hs].
  now rewrite (Hpq c Hc), IH.
Qed.

Lemma every_substring (p : ascii -> bool) (n m : nat) (s : string) :
  every p s = true -> every p (substring n m s) = true.
Proof.
  revert n m. induction s as [|c s IH]; intros n m H.
  - destruct n, m; reflexivity.
  - cbn [every] in H. apply andb_true_iff in H. destruct H as [Hc Hs].
    destruct n as [|n]; destruct m as [|m]; cbn [substring every];
      try reflexivity; try (now apply IH).
    rewrite Hc. now apply IH.
Qed.

Lemma every_get (p : ascii -> bool) (s : string) (i : nat) (c : ascii) :
  every p s = true -> String.get i s = Some c -> p c = true.
Proof.
  revert i. induction s as [|x s IH]; intros i H Hi; [discriminate Hi|].
  cbn [every] in H. apply andb_true_iff in H. destruct H as [Hx Hs].
  destruct i as [|i]; cbn [String.get] in Hi.
  - now inversion Hi; subst.
  - exact (IH i Hs Hi).
Qed.

Lemma is_digit_name_char (c : ascii) :
  is_digit c = true -> name_char c = true.
Proof.
  unfold name_char, safe_char, isalnum, is_digit. intros ->. reflexivity.
Qed.

Lemma every_name_char_format_d (w : nat) (n : N) :
  every name_char (format_d w n) = true.
Proof.
  apply (every_mono is_digit); [exact is_digit_name_char|].
  apply every_digit_format_d.
Qed.

Lemma every_name_char_timestamp (dt : DateTime) :
  every name_char (timestamp dt) = true.
Proof.
  unfold timestamp, drop_last. apply every_substring.
  unfold strftime. rewrite !every_append, !every_name_char_format_d.
  reflexivity.
Qed.

Lemma every_name_char_artifact_name (n : nat) (dt : DateTime)
  (label : option string) :
  every name_char (artifact_name n dt label) = true.
Proof.
  unfold artifact_name.
  rewrite !every_append, every_name_char_format_d,
    every_name_char_timestamp.
  rewrite (every_mono safe_char name_char (label_segment label)).
  - reflexivity.
  - intros c Hc. unfold name_char. now rewrite Hc.
  - apply every_safe_label_segment.
Qed.

Lemma sanitize_safe (l : string) :
  every safe_char l = true -> sanitize l = l.
Proof.
  induction l as [|c l IH]; [reflexivity|].
  cbn [every]. intros H. apply andb_true_iff in H. destruct H as [Hc Hl].
  cbn [sanitize map_chars]. unfold sanitize_char. fold (safe_char c).
  rewrite Hc. f_equal. exact (IH Hl).
Qed.

Lemma compare_append_lt (a b x y : string) :
  String.length a = String.length b ->
  String.compare a b = Lt ->
  String.compare (a +:+ x) (b +:+ y) = Lt.
Proof.
  revert b. induction a as [|c a IH]; intros [|d b] Hlen Hlt;
    try discriminate.
  rewrite !append_cons. cbn [String.compare] in *.
  destruct (Ascii.compare c d); try assumption.
  apply IH; [now inversion Hlen|exact Hlt].
Qed.

Lemma ascii_compare_refl (c : ascii) : Ascii.compare c c = Eq.
Proof. unfold Ascii.compare. apply N.compare_refl. Qed.

Lemma compare_append_same (a x y : string) :
  String.compare (a +:+ x) (a +:+ y) = String.compare x y.
Proof.
  induction a as [|c a IH]; [reflexivity|].
  rewrite !append_cons. cbn [String.compare].
  now rewrite ascii_compare_refl.
Qed.

Lemma pretty_N_char_lt (x y : N) :
  (x < y)%N -> (y < 10)%N ->
  Ascii.compare (pretty_N_char x) (pretty_N_char y) = Lt.
Proof.
  intros Hxy Hy.
  assert (Hx : (x = 0 \/ x = 1 \/ x = 2 \/ x = 3 \/ x = 4 \/ x = 5
                \/ x = 6 \/ x = 7 \/ x = 8)%N) by lia.
  assert (Hy' : (y = 1 \/ y = 2 \/ y = 3 \/ y = 4 \/ y = 5
                 \/ y = 6 \/ y = 7 \/ y = 8 \/ y = 9)%N) by lia.
  repeat (destruct Hx as [->|Hx]); try subst x;
    repeat (destruct Hy' as [->|Hy']); try subst y;
    first [reflexivity | lia].
Qed.

(** Numbers of the same width sort as strings the way they sort as
    numbers. *)
Lemma fixed_digits_lt (w : nat) (m n : N) :
  (m < n)%N -> (n < 10 ^ N.of_nat w)%N ->
  String.compare (fixed_digits w m) (fixed_digits w n) = Lt.
Proof.
  revert m n. induction w as [|w IH]; intros m n Hmn Hn.
  - cbn in Hn. lia.
  - cbn [fixed_digits].
    assert (Hdiv : (n / 10 < 10 ^ N.of_nat w)%N).
    { apply N.Div0.div_lt_upper_bound.
      rewrite Nat2N.inj_succ, N.pow_succ_r' in Hn. exact Hn. }
    assert (Hle : (m / 10 <= n / 10)%N) by (apply N.Div0.div_le_mono; lia).
    destruct (N.eq_dec (m / 10)%N (n / 10)%N) as [E|E].
    + rewrite E, compare_append_same. cbn [String.compare].
      rewrite pretty_N_char_lt; [reflexivity| |apply N.mod_lt; lia].
      pose proof (N.div_mod m 10%N ltac:(lia)).
      pose proof (N.div_mod n 10%N ltac:(lia)). lia.
    + apply compare_append_lt.
      * now rewrite !length_fixed_digits.
      * apply IH; [lia|exact Hdiv].
Qed.

End NameOrder.

Section NameProperties.
Context {World Elem Value Args Exn : Type}.
Variable R : Remote World Elem Value Args Exn.

Local Abbreviation State := (St World).

Lemma artifact_name_lt (m n : nat) (dt1 dt2 : DateTime)
  (l1 l2 : option string) :
  m < n -> (N.of_nat n < 10000)%N ->
  String.compare (artifact_name m dt1 l1) (artifact_name n dt2 l2) = Lt.
Proof.
  intros Hmn Hn. rewrite !artifact_name_shape.
  rewrite !(NameFacts.format_d_fixed 4)
    by (try lia; change (10 ^ N.of_nat 4)%N with 10000%N; lia).
  apply NameOrder.compare_append_lt.
  - now rewrite !NameFacts.length_fixed_digits.
  - apply NameOrder.fixed_digits_lt; [lia|].
    change (10 ^ N.of_nat 4)%N with 10000%N. lia.
Qed.

Lemma issue_made (c : Call) (s : State) :
  made s -> made (snd (issue R c s)).
Proof.
  intros H. unfold made.
  destruct (issue_cases R c s)
    as [(_ & Hs & _)|[(l & _ & _ & Hs & _)|(l & w & _ & _ & Hs & _)]];
    rewrite Hs.
  - exact H.
  - exact H.
  - cbn [captured self out_dir history]. apply List.Forall_app.
    split; [exact H|]. constructor; [|constructor].
    unfold shot_path. eauto.
Qed.

Lemma run_calls_made (cs : list Call) (s : State) :
  made s -> made (run_calls R cs s).
Proof.
  revert s. induction cs as [|c cs IH]; intros s H; [exact H|].
  rewrite run_calls_cons. apply IH. now apply issue_made.
Qed.

(** X5. Whatever the label, the name that [_next_name] returns is made of
    alphanumerics, [-], [_] and [.] only: it holds no path separator, is
    neither [.] nor [..], and the path lies directly in the output
    directory. *)
Theorem snapshot_name_has_no_separator
  (label : option string) (s : State) :
  exists p : Path,
    fst (_next_name R label s) = Ok p /\
    parent p = out_dir (self s) /\
    PyStr.every name_char (name p) = true /\
    (forall i, String.get i (name p) <> Some "/"%char) /\
    name p <> "." /\ name p <> "..".
Proof.
  rewrite next_name_run. eexists. split; [reflexivity|].
  unfold shot_path, path_div. cbn [parent name].
  pose proof (NameOrder.every_name_char_artifact_name
                (S (_counter (self s))) (fst (now R (world s))) label) as Hc.
  split; [reflexivity|]. split; [exact Hc|]. split.
  - intros i Hi. pose proof (NameOrder.every_get _ _ _ _ Hc Hi) as H.
    discriminate H.
  - pose proof (PyStrFacts.head_is_digit_app
                  (PyStr.format_d 4 (N.of_nat (S (_counter (self s)))))
                  (String "_"
                     (timestamp (fst (now R (world s))) +:+ "_"
                      +:+ label_segment label +:+ ".png"))
                  (PyStrFacts.head_is_digit_format_d 4 _)) as Hd.
    rewrite <- artifact_name_shape in Hd.
    split; intros E; rewrite E in Hd; discriminate Hd.
Qed.

(** X6. While the counter of a fresh proxy stays below 10000, the names of
    the history sort, as strings, in the order in which the snapshots were
    taken, whatever the clock and the labels. *)
Theorem history_sorts_by_name
  (dir : string) (w : World) (s0 : State) (cs : list Call) :
  __init__ R dir w = Ok s0 ->
  (N.of_nat (_counter (self (run_calls R cs s0))) < 10000)%N ->
  forall (i j : nat) (p q : Path),
    i < j ->
    history (self (run_calls R cs s0)) !! i = Some p ->
    history (self (run_calls R cs s0)) !! j = Some q ->
    String.compare (name p) (name q) = Lt.
Proof.
  intros Hinit Hc i j p q Hij Hp Hq.
  destruct (run_calls_trailed R cs s0 (init_trailed R dir w s0 Hinit))
    as [Hinc _].
  destruct (increasing_below_lookup _ _ i j
              (sequence_number p) (sequence_number q) Hinc Hij)
    as (m & n & Hm & Hn & H1 & Hmn & Hnc);
    try (rewrite list_lookup_fmap; [now rewrite Hp || now rewrite Hq]).
  assert (Hmade : made (run_calls R cs s0)).
  { apply run_calls_made.
    destruct (init_numbered R dir w s0 Hinit) as (_ & Hself & _).
    unfold made. rewrite Hself. constructor. }
  pose proof (proj1 (List.Forall_forall _ _) Hmade) as Hall.
  destruct (Hall p (proj1 (list_elem_of_In _ _)
                      (list_elem_of_lookup_2 _ _ _ Hp)))
    as (k1 & dt1 & l1 & ->).
  destruct (Hall q (proj1 (list_elem_of_In _ _)
                      (list_elem_of_lookup_2 _ _ _ Hq)))
    as (k2 & dt2 & l2 & ->).
  rewrite sequence_number_artifact_name in Hm, Hn.
  inversion Hm; inversion Hn; subst k1 k2. cbn [path_div name].
  apply artifact_name_lt; lia.
Qed.

(** X7. The padding to four digits is where the order ends: the name
    numbered 10000 sorts before the name numbered 9999, whatever the clock
    and the labels. *)
Theorem name_10000_sorts_before_9999
  (label1 label2 : option string) (s1 s2 : State) (p1 p2 : Path) :
  _counter (self s1) = N.to_nat 9998 ->
  _counter (self s2) = N.to_nat 9999 ->
  fst (_next_name R label1 s1) = Ok p1 ->
  fst (_next_name R label2 s2) = Ok p2 ->
  sequence_number p1 = Some (N.to_nat 9999) /\
  sequence_number p2 = Some (N.to_nat 10000) /\
  String.compare (name p2) (name p1) = Lt.
Proof.
  intros H1 H2 Hp1 Hp2. rewrite next_name_run in Hp1, Hp2.
  cbn [fst] in Hp1, Hp2. inversion Hp1; inversion Hp2; subst p1 p2.
  rewrite !sequence_number_shot_path, H1, H2.
  split; [f_equal; lia|]. split; [f_equal; lia|].
  unfold shot_path, path_div. cbn [name]. rewrite H1, H2.
  rewrite !artifact_name_shape.
  assert (E1 : PyStr.format_d 4 (N.of_nat (S (N.to_nat 9999))) = "10000")
    by (vm_compute; reflexivity).
  assert (E2 : PyStr.format_d 4 (N.of_nat (S (N.to_nat 9998))) = "9999")
    by (vm_compute; reflexivity).
  rewrite E1, E2. reflexivity.
Qed.

(** X8. Sanitising is idempotent, keeps exactly the labels that hold only
    alphanumerics, [-] and [_], and a label names a snapshot as its
    sanitised form does. *)
Theorem sanitized_label_is_stable (l : string) (s : State) :
  sanitize (sanitize l) = sanitize l /\
  (sanitize l = l <-> PyStr.every safe_char l = true) /\
  _next_name R (Some (sanitize l)) s = _next_name R (Some l) s.
Proof.
  pose proof (NameOrder.sanitize_safe (sanitize l)
                (NameFacts.every_safe_sanitize l)) as Hidem.
  split; [exact Hidem|]. split.
  - split.
    + intros E. rewrite <- E. apply NameFacts.every_safe_sanitize.
    + apply NameOrder.sanitize_safe.
  - rewrite !next_name_run. f_equal. unfold shot_path, artifact_name.
    do 6 f_equal. destruct l as [|c l]; [reflexivity|].
    change (sanitize (String c l))
      with (String (sanitize_char c) (sanitize l)) at 1.
    cbn [label_segment].
    change (String (sanitize_char c) (sanitize l))
      with (sanitize (String c l)).
    now rewrite Hidem.
Qed.

End NameProperties.

(* ===================================================================== *)
(** * Elements, the scripted session and [main] *)
(* ===================================================================== *)

Section SessionFacts.
Context {World Elem Value Args Exn : Type}.
Variable R : Remote World Elem Value Args Exn.
Variable by_id : string -> Args.

Local Abbreviation State := (St World).


Lemma ok_issue_bind {A : Type} (m : @Eff.M State Exn A)
  (f : A -> @Returned Elem Value) (s : State) :
  is_ok (fst (Eff.bind m (fun a => Eff.ret (f a)) s)) = is_ok (fst (m s)).
Proof. unfold Eff.bind, Eff.ret. destruct (m s) as [[a|e] s']; reflexivity. Qed.

(** An intercepted method, once its capture has returned. *)
Lemma captured_then (l : string) (s : State) (A : Type)
  (f : World -> Res Exn A * World) :
  is_ok (fst (screenshot R (Some l) s)) = true ->
  exists w,
    (screenshot R (Some l) ;;; call f) s
    = (fst (f w), mkSt (self (captured R s (Some l) w)) (snd (f w))
                    (logs (captured R s (Some l) w))) /\
    screenshot R (Some l) s
    = (Ok (shot_path R s (Some l)), captured R s (Some l) w).
Proof.
  intros Hok. unfold Eff.bind. rewrite screenshot_run in *.
  destruct (save_screenshot R _ _) as [[v|e] w]; [|discriminate Hok].
  exists w. unfold call. cbn [world captured self logs].
  destruct (f w) as [r w']. split; reflexivity.
Qed.



End SessionFacts.

Section ElementProperties.
Context {World Elem Value Args Exn : Type}.
Variable R : Remote World Elem Value Args Exn.

Local Abbreviation State := (St World).

Lemma intercepted_history (l : string) (s : State)
  (f : World -> Res Exn Value * World) :
  is_ok (fst (screenshot R (Some l) s)) = true ->
  history (self (snd ((screenshot R (Some l) ;;; call f) s)))
  = (history (self s) ++ [shot_path R s (Some l)])%list.
Proof.
  intros Hok. destruct (captured_then R l s Value f Hok) as (w & -> & _).
  reflexivity.
Qed.

(** X9. [find_element] keeps the label it was given on the element it
    returns, the empty label included.  When that label is not empty, the
    lookup and every later click, text entry and submit on the element
    whose capture returns record a snapshot named after the label, so the
    keys typed never reach a file name.  When the label is absent or
    empty, the snapshot of the lookup is named [before_find_element] and
    the snapshot of a text entry whose capture returns is named after the
    keys. *)
Theorem element_snapshots_carry_lookup_label
  (args : Args) (label : option string) (s s1 : State)
  (we : WrappedElement Elem) :
  find_element R args label s = (Ok we, s1) ->
  _label we = label /\
  history (self s1)
  = (history (self s)
     ++ [shot_path R s
           (Some (PyStr.or_else label "before_find_element"))])%list /\
  (forall (c : ascii) (l : string),
     label = Some (String c l) ->
     PyStr.or_else label "before_find_element" = String c l /\
     forall (keys : list string) (s' : State),
       is_ok (fst (screenshot R (Some (String c l)) s')) = true ->
       history (self (snd (click R we s')))
       = (history (self s') ++ [shot_path R s' (Some (String c l))])%list /\
       history (self (snd (send_keys R we keys s')))
       = (history (self s') ++ [shot_path R s' (Some (String c l))])%list /\
       history (self (snd (submit R we s')))
       = (history (self s') ++ [shot_path R s' (Some (String c l))])%list /\
       name (shot_path R s' (Some (String c l)))
       = PyStr.format_d 4 (N.of_nat (S (_counter (self s')))) +:+ "_"
         +:+ timestamp (fst (now R (world s'))) +:+ "_"
         +:+ sanitize (String c l) +:+ ".png") /\
  (label = None \/ label = Some "" ->
   PyStr.or_else label "before_find_element" = "before_find_element" /\
   forall (keys : list string) (s' : State),
     is_ok (fst (screenshot R
                   (Some ("before_send_keys_" +:+ String.concat "_" keys))
                   s')) = true ->
     history (self (snd (send_keys R we keys s')))
     = (history (self s')
        ++ [shot_path R s'
              (Some ("before_send_keys_" +:+ String.concat "_" keys))])%list
     /\
     name (shot_path R s'
             (Some ("before_send_keys_" +:+ String.concat "_" keys)))
     = PyStr.format_d 4 (N.of_nat (S (_counter (self s')))) +:+ "_"
       +:+ timestamp (fst (now R (world s'))) +:+ "_"
       +:+ sanitize ("before_send_keys_" +:+ String.concat "_" keys)
       +:+ ".png").
Proof.
  intros Hfind. unfold find_element in Hfind.
  unfold Eff.bind at 1 in Hfind.
  set (l0 := PyStr.or_else label "before_find_element") in *.
  pose proof (screenshot_run R (Some l0) s) as Hrun.
  destruct (screenshot R (Some l0) s) as [[p|e] s0] eqn:Es;
    [|discriminate Hfind].
  unfold Eff.bind, call, Eff.ret in Hfind.
  destruct (driver_find_element R args (world s0)) as [[el|e] w'];
    [|discriminate Hfind].
  inversion Hfind; subst we s1. clear Hfind.
  destruct (save_screenshot R _ _) as [[v|e] w0]; [|discriminate Hrun].
  inversion Hrun; subst p s0. cbn [self captured history _label].
  split; [reflexivity|]. split; [reflexivity|]. split.
  - intros c l ->. split; [reflexivity|].
    intros keys s' Hok. unfold click, send_keys, submit.
    cbn [_label _element PyStr.or_else].
    rewrite !intercepted_history by exact Hok.
    repeat split.
  - intros Hl. split; [destruct Hl as [->| ->]; reflexivity|].
    intros keys s' Hok. unfold send_keys.
    assert (E : PyStr.or_else label
                  ("before_send_keys_" +:+ String.concat "_" keys)
                = "before_send_keys_" +:+ String.concat "_" keys)
      by (destruct Hl as [->| ->]; reflexivity).
    cbn [_label _element]. rewrite E.
    rewrite intercepted_history by exact Hok. split; reflexivity.
Qed.

End ElementProperties.

Section SessionProperties.
Context {World Elem Value Args Exn : Type}.
Variable R : Remote World Elem Value Args Exn.
Variable by_id : string -> Args.

Local Abbreviation State := (St World).

(** [finally] runs [quit] on the state the interaction left, and an
    exception of [quit] replaces the outcome. *)
Lemma session_runs_quit (query : string) (s : State) :
  snd (session R by_id query s)
  = snd (quit R (snd (interact R by_id query s))) /\
  fst (session R by_id query s)
  = match fst (quit R (snd (interact R by_id query s))) with
    | Raise e => Raise e
    | Ok _ => fst (interact R by_id query s)
    end.
Proof.
  unfold session, try_finally.
  destruct (interact R by_id query s) as [r s1]. cbn [fst snd].
  destruct (quit R s1) as [[v|e] s2]; split; reflexivity.
Qed.


End SessionProperties.

Section MainFacts.
Context {World Elem Value Args Exn : Type}.
Variable R : Remote World Elem Value Args Exn.
Variable by_id : string -> Args.

Local Abbreviation State := (St World).

(** In a session that returned, the next capture returned. *)
Ltac capture_returned H :=
  rewrite screenshot_run in H;
  destruct (save_screenshot _ _ _) as [[?|?] ?]; [|discriminate H];
  unfold call at 1 in H; cbn [world captured] in H.

(** The history of a session that returned, on a fresh proxy. *)
Lemma session_history (dir : string) (query : string) (s0 s1 : State)
  (v : Value) :
  self s0 = mkSDriver dir 0 [] ->
  session R by_id query s0 = (Ok v, s1) ->
  exists t1 t2 t3 t4 t5 : DateTime,
    history (self s1)
    = [ path_div dir
          (artifact_name 1 t1 (Some "before_get_https://en.wikipedia.org"));
        path_div dir (artifact_name 2 t2 (Some "search_input"));
        path_div dir (artifact_name 3 t3 (Some "search_input"));
        path_div dir (artifact_name 4 t4 (Some "search_input"));
        path_div dir (artifact_name 5 t5 (Some "before_quit")) ].
Proof.
  intros Hself Hrun. unfold session, try_finally in Hrun.
  destruct (interact R by_id query s0) as [[vi|ei] si] eqn:Ei.
  2:{ destruct (quit R si) as [[vq|eq] sq]; discriminate Hrun. }
  destruct (quit R si) as [[vq|eq] sq] eqn:Eq; [|discriminate Hrun].
  inversion Hrun; subst vi sq. clear Hrun.
  unfold interact, get, find_element, send_keys, submit in Ei.
  unfold Eff.bind in Ei.
  capture_returned Ei.
  destruct (driver_get R _ _) as [[?|?] ?]; [|discriminate Ei].
  capture_returned Ei.
  destruct (driver_find_element R _ _) as [[?|?] ?]; [|discriminate Ei].
  unfold Eff.ret at 1 in Ei. cbn [_label _element PyStr.or_else] in Ei.
  capture_returned Ei.
  destruct (element_send_keys R _ _ _) as [[?|?] ?]; [|discriminate Ei].
  capture_returned Ei.
  destruct (element_submit R _ _) as [[?|?] ?]; [|discriminate Ei].
  inversion Ei; subst si. clear Ei.
  unfold quit, Eff.bind in Eq. rewrite screenshot_run in Eq.
  destruct (save_screenshot R _ _) as [[?|?] ?]; [|discriminate Eq].
  unfold call in Eq. cbn [world captured] in Eq.
  destruct (driver_quit R _) as [[?|?] ?]; [|discriminate Eq].
  inversion Eq; subst s1. clear Eq.
  unfold shot_path. cbn [self history _counter out_dir world logs].
  rewrite Hself. cbn [history _counter out_dir app].
  eexists _, _, _, _, _. reflexivity.
Qed.

Lemma NoDup_map_filter {A B : Type} (f : A -> B) (P : A -> bool)
  (l : list A) :
  NoDup (map f l) -> NoDup (map f (List.filter P l)).
Proof.
  induction l as [|a l IH]; cbn [map List.filter]; intros H; [constructor|].
  apply NoDup_cons in H. destruct H as [Hnotin Hnd].
  destruct (P a); [|auto]. cbn [map].
  apply NoDup_cons. split; [|auto].
  intros Hin. apply Hnotin. apply list_elem_of_In.
  apply list_elem_of_In, in_map_iff in Hin.
  destruct Hin as (x & Hx & Hin). apply in_map_iff. exists x.
  split; [exact Hx|]. apply filter_In in Hin. tauto.
Qed.

(** Snapshots of one directory get annotated images of different paths. *)
Lemma annotated_paths_NoDup (dir : string) (h : list Path) :
  proxy_named dir h -> NoDup h ->
  NoDup (map (fun p => path_str (annotated_path p)) h).
Proof.
  induction h as [|p h IH]; intros Hn Hd; [constructor|].
  apply NoDup_cons in Hd. destruct Hd as [Hp Hd].
  apply List.Forall_cons_iff in Hn. destruct Hn as [[Hpd _] Hn].
  cbn [map]. apply NoDup_cons. split; [|auto].
  intros Hin. apply list_elem_of_In, in_map_iff in Hin.
  destruct Hin as (q & Heq & Hq).
  pose proof (proj1 (List.Forall_forall _ _) Hn q Hq) as [Hqd _].
  unfold path_str, annotated_path, with_name in Heq.
  cbn [parent name] in Heq. rewrite Hpd, Hqd in Heq.
  apply (inj (String.app dir)) in Heq.
  apply (inj (String.app "/")) in Heq.
  apply (inj (String.app "annotated_")) in Heq.
  apply Hp. apply list_elem_of_In. replace p with q; [exact Hq|].
  destruct p, q. cbn in *. congruence.
Qed.

End MainFacts.

Section MainProperties.
Context {World Elem Value Args Exn : Type}.
Variable R : Remote World Elem Value Args Exn.
Variable Firefox : list string -> Res Exn World.
Variable Chrome : list string -> Res Exn World.
Variable ValueError : string -> Exn.
Variable Reader : Res Exn (string -> Res Exn (list Detection)).
Variable by_id : string -> Args.
Variable files_of : World -> gmap string Cv2.Image.

Local Abbreviation State := (St World).
Local Abbreviation run :=
  (main R Firefox Chrome ValueError Reader by_id files_of).
Local Abbreviation started := (launch Firefox Chrome ValueError).

(** The loop is reached only through a session that returned. *)
Lemma main_reached_annotation (args : Argv.Namespace) (a : AState) :
  annotation (run args) = Some a ->
  exists w s0 readtext v s1,
    started args = Ok w /\
    __init__ R "screenshots" w = Ok s0 /\
    Reader = Ok readtext /\
    session R by_id (Argv.search args) s0 = (Ok v, s1) /\
    run args
    = mkEnded
        (fst (annotate readtext (history (self s1))
                (mkAState (mkDisk (files_of (world s1)) []) (logs s1))))
        (Some s1)
        (Some (snd (annotate readtext (history (self s1))
                      (mkAState (mkDisk (files_of (world s1)) [])
                         (logs s1))))).
Proof.
  unfold main.
  destruct (started args) as [w|e] eqn:Ew; [|discriminate].
  destruct (__init__ R "screenshots" w) as [s0|e] eqn:Ei; [|discriminate].
  destruct Reader as [readtext|e] eqn:Er; [|discriminate].
  destruct (session R by_id (Argv.search args) s0) as [[v|e] s1] eqn:Es;
    [|discriminate].
  intros _. exists w, s0, readtext, v, s1.
  repeat (split; [reflexivity || assumption|]). reflexivity.
Qed.

(** X11. When [main] reaches the annotation loop and the reader returns
    for the snapshots that load, [main] returns; the session recorded five
    snapshots, named after the page, three times after the label of the
    search box, and after [quit], so the query is in no name; each snapshot
    that loads gets its own annotated image next to it, and no snapshot is
    overwritten. *)
Theorem main_annotates_each_readable_snapshot
  (args : Argv.Namespace)
  (readtext : string -> Res Exn (list Detection))
  (s1 : State) (a : AState) :
  Reader = Ok readtext ->
  proxy (run args) = Some s1 ->
  annotation (run args) = Some a ->
  detects readtext (files_of (world s1)) (history (self s1)) ->
  result (run args) = Ok tt /\
  (exists t1 t2 t3 t4 t5 : DateTime,
     map name (history (self s1))
     = [ "0001_" +:+ timestamp t1
         +:+ "_before_get_https___en_wikipedia_org.png";
         "0002_" +:+ timestamp t2 +:+ "_search_input.png";
         "0003_" +:+ timestamp t3 +:+ "_search_input.png";
         "0004_" +:+ timestamp t4 +:+ "_search_input.png";
         "0005_" +:+ timestamp t5 +:+ "_before_quit.png" ]) /\
  map fst (written (disk a))
  = map (fun p => "screenshots/annotated_" +:+ name p)
      (List.filter (loaded (files_of (world s1))) (history (self s1))) /\
  NoDup (map fst (written (disk a))) /\
  (forall p, In p (history (self s1)) ->
             files (disk a) !! path_str p
             = files_of (world s1) !! path_str p).
Proof.
  intros HR Hp Ha Hd.
  destruct (main_reached_annotation args a Ha)
    as (w & s0 & rt & v & s1' & Hw & Hinit & HR' & Hs & Hrun).
  rewrite HR in HR'. inversion HR'; subst rt. clear HR'.
  rewrite Hrun in Hp, Ha |- *. cbn [proxy annotation result] in *.
  inversion Hp; subst s1'. clear Hp.
  destruct (init_numbered R "screenshots" w s0 Hinit) as (_ & Hself & _).
  destruct (session_history R by_id "screenshots" _ s0 s1 v Hself Hs)
    as (t1 & t2 & t3 & t4 & t5 & Hh).
  assert (Hnamed : proxy_named "screenshots" (history (self s1))).
  { rewrite Hh. repeat constructor. }
  assert (Hnodup : NoDup (history (self s1))).
  { apply (increasing_below_NoDup 5). rewrite Hh. cbn [map].
    rewrite !sequence_number_artifact_name. cbn.
    repeat split; try lia; repeat constructor; lia. }
  pose proof (proxy_named_sources_kept _ _ Hnamed) as Hk.
  rewrite (annotate_run readtext (history (self s1))
             (mkAState (mkDisk (files_of (world s1)) []) (logs s1)) Hd Hk)
    in Ha |- *.
  cbn [fst snd disk files written alogs app] in Ha |- *.
  inversion Ha; subst a. clear Ha. cbn [disk files written].
  split; [reflexivity|]. split.
  { exists t1, t2, t3, t4, t5. rewrite Hh. reflexivity. }
  assert (Hpaths :
    map fst (outputs readtext (files_of (world s1)) (history (self s1)))
    = map (fun p => path_str (annotated_path p))
        (List.filter (loaded (files_of (world s1))) (history (self s1))))
    by (apply outputs_paths; exact Hd).
  split.
  { rewrite Hpaths. apply map_ext_in. intros p Hin.
    apply filter_In in Hin. destruct Hin as [Hin _].
    destruct (proj1 (List.Forall_forall _ _) Hnamed p Hin) as [Hpar _].
    unfold path_str, annotated_path, with_name. cbn [parent name].
    rewrite Hpar. reflexivity. }
  split.
  { rewrite Hpaths. apply NoDup_map_filter.
    now apply (annotated_paths_NoDup "screenshots"). }
  intros p Hin. rewrite lookup_fold_store.
  rewrite last_write_none; [reflexivity|].
  now apply outputs_sources_kept.
Qed.

(** X12. [main] annotates nothing unless the whole session returned.  When
    the reader cannot be created the session is left as it was opened, not
    closed; when the scripted interaction raises, [quit] still runs and
    [main] raises, with the exception of [quit] if it raises too. *)
Theorem main_stops_before_annotation
  (args : Argv.Namespace) (w : World) (s0 : State) :
  started args = Ok w ->
  __init__ R "screenshots" w = Ok s0 ->
  (forall e, Reader = Raise e ->
     run args = mkEnded (Raise e) (Some s0) None /\
     history (self s0) = [] /\ _counter (self s0) = 0) /\
  (forall readtext e,
     Reader = Ok readtext ->
     fst (interact R by_id (Argv.search args) s0) = Raise e ->
     annotation (run args) = None /\
     proxy (run args)
     = Some (snd (quit R (snd (interact R by_id (Argv.search args) s0)))) /\
     result (run args)
     = match fst (quit R (snd (interact R by_id (Argv.search args) s0))) with
       | Raise e' => Raise e'
       | Ok _ => Raise e
       end) /\
  (forall a, annotation (run args) = Some a ->
     is_ok (fst (session R by_id (Argv.search args) s0)) = true).
Proof.
  intros Hw Hinit.
  destruct (init_numbered R "screenshots" w s0 Hinit) as (_ & Hself & _).
  unfold main. rewrite Hw, Hinit. split; [|split].
  - intros e ->. rewrite Hself. repeat split.
  - intros readtext e -> He.
    destruct (session_runs_quit R by_id (Argv.search args) s0)
      as (Hsnd & Hfst).
    rewrite He in Hfst.
    destruct (session R by_id (Argv.search args) s0) as [r s1].
    cbn [fst snd] in Hsnd, Hfst. subst s1.
    destruct (fst (quit R (snd (interact R by_id (Argv.search args) s0))))
      as [vq|eq]; subst r; repeat split.
  - intros a. destruct Reader as [readtext|e]; [|discriminate].
    destruct (session R by_id (Argv.search args) s0) as [[v|e] s1];
      [reflexivity|discriminate].
Qed.

End MainProperties.

(* ===================================================================== *)
(** * The annotation loop, whatever the reader does *)
(* ===================================================================== *)

Section AnnotateProperties.
Context {Exn : Type}.
Variable readtext : string -> Res Exn (list Detection).

Lemma annotate_one_reader_raises (p : Path) (s : AState)
  (img : Cv2.Image) (e : Exn) :
  files (disk s) !! path_str p = Some img ->
  readtext (path_str p) = Raise e ->
  annotate_one readtext p s
  = (Raise e,
     mkAState (disk s)
       (alogs s ++ [mkLog INFO ("Annotating " +:+ path_str p)])).
Proof.
  intros H Hd. unfold annotate_one, Eff.bind, logging, imread,
    Eff.modify, Eff.gets. cbn. rewrite H, Hd. reflexivity.
Qed.

Lemma annotate_app (h1 h2 : list Path) (s : AState) :
  annotate readtext (h1 ++ h2) s
  = match annotate readtext h1 s with
    | (Ok _, s') => annotate readtext h2 s'
    | (Raise e, s') => (Raise e, s')
    end.
Proof.
  revert s. induction h1 as [|p h1 IH]; intros s; [reflexivity|].
  cbn [app annotate]. unfold Eff.bind.
  destruct (annotate_one readtext p s) as [[u|e] s']; [|reflexivity].
  apply IH.
Qed.

Lemma outputs_keys (fs : gmap string Cv2.Image) (h : list Path)
  (k : string) :
  In k (map fst (outputs readtext fs h)) ->
  exists q, In q h /\ k = path_str (annotated_path q).
Proof.
  intros Hin. apply in_map_iff in Hin.
  destruct Hin as [[k' img] [Hk Hin]]. cbn in Hk. subst k'.
  unfold outputs in Hin. apply in_flat_map in Hin.
  destruct Hin as [q [Hq Hin]].
  destruct (fs !! path_str q); [|contradiction].
  destruct (readtext (path_str q)); [|contradiction].
  destruct Hin as [Hin|[]]. inversion Hin. eauto.
Qed.

(** What one turn of the loop does to the files, in every case. *)
Lemma annotate_one_writes (p : Path) (s : AState) :
  exists outs,
    written (disk (snd (annotate_one readtext p s)))
    = (written (disk s) ++ outs)%list /\
    files (disk (snd (annotate_one readtext p s)))
    = fold_left store outs (files (disk s)) /\
    Forall (fun kv => fst kv = path_str (annotated_path p)) outs.
Proof.
  destruct (files (disk s) !! path_str p) as [img|] eqn:Hp.
  - destruct (readtext (path_str p)) as [ds|e] eqn:Hr.
    + rewrite (annotate_one_loaded readtext p s img ds Hp Hr).
      eexists [_]. cbn [snd disk written files fold_left].
      split; [reflexivity|]. split; [reflexivity|].
      constructor; [reflexivity|constructor].
    + rewrite (annotate_one_reader_raises p s img e Hp Hr).
      exists []. cbn [snd disk fold_left]. rewrite app_nil_r.
      split; [reflexivity|]. split; [reflexivity|constructor].
  - rewrite (annotate_one_missing readtext p s Hp).
    exists []. cbn [snd disk fold_left]. rewrite app_nil_r.
    split; [reflexivity|]. split; [reflexivity|constructor].
Qed.

Lemma annotate_writes (h : list Path) (s : AState) :
  exists outs,
    written (disk (snd (annotate readtext h s)))
    = (written (disk s) ++ outs)%list /\
    files (disk (snd (annotate readtext h s)))
    = fold_left store outs (files (disk s)) /\
    Forall (fun kv => exists p, In p h /\
                                fst kv = path_str (annotated_path p)) outs.
Proof.
  revert s. induction h as [|p h IH]; intros s.
  - exists []. cbn. rewrite app_nil_r. repeat split. constructor.
  - cbn [annotate]. unfold Eff.bind.
    destruct (annotate_one_writes p s) as (o1 & W1 & F1 & A1).
    destruct (annotate_one readtext p s) as [[u|e] s1]; cbn [snd] in *.
    + destruct (IH s1) as (o2 & W2 & F2 & A2).
      exists (o1 ++ o2)%list. rewrite W2, F2, W1, F1, fold_left_app, app_assoc.
      split; [reflexivity|]. split; [reflexivity|].
      apply List.Forall_app. split.
      * eapply List.Forall_impl; [|exact A1]. intros kv Hkv.
        exists p. split; [now left|exact Hkv].
      * eapply List.Forall_impl; [|exact A2]. intros kv (q & Hq & Hkv).
        exists q. split; [now right|exact Hkv].
    + exists o1. split; [exact W1|]. split; [exact F1|].
      eapply List.Forall_impl; [|exact A1]. intros kv Hkv.
      exists p. split; [now left|exact Hkv].
Qed.

(** X13. Whatever the files and the reader, and whether the loop returns
    or raises, it writes only under the annotated paths of the snapshots
    of the history, it only adds to the record of writes, and every other
    file is left as it was. *)
Theorem annotate_writes_only_annotated_paths (h : list Path) (s : AState) :
  (exists outs,
     written (disk (snd (annotate readtext h s)))
     = (written (disk s) ++ outs)%list /\
     Forall (fun kv => exists p, In p h /\
                                 fst kv = path_str (annotated_path p))
       outs) /\
  (forall k,
     (forall p, In p h -> k <> path_str (annotated_path p)) ->
     files (disk (snd (annotate readtext h s))) !! k
     = files (disk s) !! k).
Proof.
  destruct (annotate_writes h s) as (outs & W & F & A). split.
  - exists outs. split; assumption.
  - intros k Hk. rewrite F, lookup_fold_store.
    rewrite last_write_none; [reflexivity|].
    intros Hin. apply in_map_iff in Hin.
    destruct Hin as (kv & Hkv & Hin).
    destruct (proj1 (List.Forall_forall _ _) A kv Hin) as (p & Hp & Hfst).
    apply (Hk p Hp). congruence.
Qed.

(** X14. When the reader raises on a snapshot that loads, the loop raises
    the same exception there: the annotated images of the snapshots before
    it stay written, the snapshots after it are neither read nor logged,
    and the last record is the announcement of the failing one. *)
Theorem reader_exception_stops_the_loop
  (fs : gmap string Cv2.Image) (lg : list LogRecord)
  (h1 h2 : list Path) (p : Path) (img : Cv2.Image) (e : Exn) :
  detects readtext fs h1 ->
  sources_kept (h1 ++ p :: h2) ->
  fs !! path_str p = Some img ->
  readtext (path_str p) = Raise e ->
  annotate readtext (h1 ++ p :: h2) (mkAState (mkDisk fs []) lg)
  = (Raise e,
     mkAState
       (mkDisk (fold_left store (outputs readtext fs h1) fs)
          (outputs readtext fs h1))
       (lg ++ records fs h1
        ++ [mkLog INFO ("Annotating " +:+ path_str p)])%list).
Proof.
  intros Hd Hk Hp Hr. rewrite annotate_app.
  assert (Hk1 : sources_kept h1).
  { intros a b Ha Hb. apply Hk; apply in_or_app; now left. }
  rewrite (annotate_run readtext h1 (mkAState (mkDisk fs []) lg) Hd Hk1).
  cbn [disk files written alogs app annotate]. unfold Eff.bind.
  rewrite (annotate_one_reader_raises p _ img e).
  - cbn [disk alogs]. now rewrite <- app_assoc.
  - cbn [disk files]. rewrite lookup_fold_store.
    rewrite last_write_none; [exact Hp|].
    intros Hin. destruct (outputs_keys fs h1 _ Hin) as (q & Hq & Heq).
    apply (Hk p q); [apply in_or_app; right; now left|
                     apply in_or_app; now left|now symmetry].
  - exact Hr.
Qed.

End AnnotateProperties.

(* ===================================================================== *)
(** * Where the marks land *)
(* ===================================================================== *)

Lemma py_int_close (x : Num) :
  (x - 1 < inject_Z (py_int x))%Q /\
  (inject_Z (py_int x) < x + 1)%Q /\
  ((0 <= x)%Q -> (0 <= inject_Z (py_int x) <= x)%Q) /\
  ((x <= 0)%Q -> (x <= inject_Z (py_int x) <= 0)%Q).
Proof.
  destruct x as [n d]. unfold py_int, Qlt, Qle, Qminus, Qplus, Qopp,
    inject_Z. cbn [Qnum Qden].
  pose proof (Z.quot_rem' n (Z.pos d)) as Hqr.
  pose proof (Z.rem_bound_abs n (Z.pos d) ltac:(lia)) as Hb.
  pose proof (Z.rem_nonneg n (Z.pos d) ltac:(lia)) as Hs1.
  pose proof (Z.rem_nonpos n (Z.pos d) ltac:(lia)) as Hs2.
  set (q := Z.quot n (Z.pos d)) in *. set (r := Z.rem n (Z.pos d)) in *.
  clearbody q r.
  assert (E : (q * Z.pos d = n - r)%Z) by lia.
  cbn. rewrite ?Z.mul_1_r, ?Pos.mul_1_r, ?E.
  repeat split; try intros H; try lia; nia.
Qed.

(** X15. For each detection the loop adds a rectangle and then a text, and
    changes nothing else of the image; each coordinate of the two corners
    of the rectangle is the coordinate of the first, respectively third,
    corner of the detection cut toward zero, so less than one pixel away
    from it; the text starts at the first corner, 10 pixels up. *)
Theorem marks_land_within_one_pixel (img : Cv2.Image) (d : Detection) :
  exists x1 y1 x2 y2 : Z,
    Cv2.marks (draw_detection img d)
    = (Cv2.marks img
       ++ [ Cv2.Rectangle (x1, y1) (x2, y2) (0, 255, 0)%Z 2%Z;
            Cv2.PutText (text d) (x1, (y1 - 10)%Z)
              Cv2.FONT_HERSHEY_SIMPLEX (6 # 10)%Q (0, 255, 0)%Z 2%Z ])%list
    /\
    Cv2.picture (draw_detection img d) = Cv2.picture img /\
    cut_toward_zero x1 (fst (bbox0 d)) /\
    cut_toward_zero y1 (snd (bbox0 d)) /\
    cut_toward_zero x2 (fst (bbox2 d)) /\
    cut_toward_zero y2 (snd (bbox2 d)).
Proof.
  exists (py_int (fst (bbox0 d))), (py_int (snd (bbox0 d))),
         (py_int (fst (bbox2 d))), (py_int (snd (bbox2 d))).
  split.
  { unfold draw_detection, Cv2.putText, Cv2.rectangle.
    cbn [Cv2.marks Cv2.picture fst snd]. now rewrite <- app_assoc. }
  split; [reflexivity|].
  unfold cut_toward_zero.
  refine (conj _ (conj _ (conj _ _))); exact (py_int_close _).
Qed.

(* ===================================================================== *)
(** * The properties on concrete runs *)
(* ===================================================================== *)

(** Three navigations, the second capture fails: two snapshots, numbered 1
    and 3, with different paths. *)
Lemma snapshots_never_share_a_path_witness :
  __init__ Mock.remote "screenshots" (Mock.world0 [false; true; false] [])
  = Ok Runs.second_shot_fails /\
  NoDup (history (self (run_calls Mock.remote RunWitness.three_gets
                          Runs.second_shot_fails))) /\
  map sequence_number
    (history (self (run_calls Mock.remote RunWitness.three_gets
                      Runs.second_shot_fails)))
  = [Some 1; Some 3].
Proof.
  split; [reflexivity|].
  pose proof (snapshots_never_share_a_path Mock.remote "screenshots"
                (Mock.world0 [false; true; false] [])
                Runs.second_shot_fails RunWitness.three_gets eq_refl) as T.
  cbv zeta in T. destruct T as [T _].
  split; [exact T|vm_compute; reflexivity].
Defined.

(** The same run: three intercepted calls, counter 3, two snapshots and
    one failed capture. *)
Lemma counter_counts_intercepted_calls_witness :
  __init__ Mock.remote "screenshots" (Mock.world0 [false; true; false] [])
  = Ok Runs.second_shot_fails /\
  failed_captures Mock.remote RunWitness.three_gets Runs.second_shot_fails
  = 1 /\
  _counter (self (run_calls Mock.remote RunWitness.three_gets
                    Runs.second_shot_fails)) = 3 /\
  length (history (self (run_calls Mock.remote RunWitness.three_gets
                           Runs.second_shot_fails))) + 1 = 3.
Proof.
  split; [reflexivity|].
  assert (F : failed_captures Mock.remote RunWitness.three_gets
                Runs.second_shot_fails = 1) by (vm_compute; reflexivity).
  split; [exact F|].
  pose proof (counter_counts_intercepted_calls Mock.remote "screenshots"
                (Mock.world0 [false; true; false] [])
                Runs.second_shot_fails RunWitness.three_gets eq_refl) as T.
  cbv zeta in T. destruct T as [T1 T2]. rewrite F in T2.
  split; [rewrite T1; reflexivity|].
  rewrite T2, T1. reflexivity.
Defined.

(** The same run: two records, for the snapshots numbered 1 and 3. *)
Lemma log_has_one_record_per_snapshot_witness :
  __init__ Mock.remote "screenshots" (Mock.world0 [false; true; false] [])
  = Ok Runs.second_shot_fails /\
  logs (run_calls Mock.remote RunWitness.three_gets Runs.second_shot_fails)
  = [ mkLog INFO
        ("Saved screenshot: screenshots/"
         +:+ "0001_20261103_143305_123_before_get_https___a_test.png");
      mkLog INFO
        ("Saved screenshot: screenshots/"
         +:+ "0003_20261103_143305_623_before_get_https___c_test.png") ].
Proof.
  split; [reflexivity|].
  rewrite (log_has_one_record_per_snapshot Mock.remote "screenshots"
             (Mock.world0 [false; true; false] [])
             Runs.second_shot_fails RunWitness.three_gets eq_refl).
  vm_compute. reflexivity.
Defined.

(** The same run: the name numbered 1 sorts before the name numbered 3. *)
Lemma history_sorts_by_name_witness :
  (N.of_nat (_counter (self (run_calls Mock.remote RunWitness.three_gets
                               Runs.second_shot_fails))) < 10000)%N /\
  map name
    (history (self (run_calls Mock.remote RunWitness.three_gets
                      Runs.second_shot_fails)))
  = [ "0001_20261103_143305_123_before_get_https___a_test.png";
      "0003_20261103_143305_623_before_get_https___c_test.png" ] /\
  String.compare
    "0001_20261103_143305_123_before_get_https___a_test.png"
    "0003_20261103_143305_623_before_get_https___c_test.png" = Lt.
Proof.
  assert (C : (N.of_nat (_counter (self (run_calls Mock.remote
                                          RunWitness.three_gets
                                          Runs.second_shot_fails)))
               < 10000)%N) by (vm_compute; reflexivity).
  split; [exact C|]. split; [vm_compute; reflexivity|].
  apply (history_sorts_by_name Mock.remote "screenshots"
           (Mock.world0 [false; true; false] [])
           Runs.second_shot_fails RunWitness.three_gets eq_refl C 0 1
           (path_div "screenshots"
              "0001_20261103_143305_123_before_get_https___a_test.png")
           (path_div "screenshots"
              "0003_20261103_143305_623_before_get_https___c_test.png")).
  - lia.
  - vm_compute. reflexivity.
  - vm_compute. reflexivity.
Defined.

(** The captures numbered 9999 and 10000. *)
Lemma name_10000_sorts_before_9999_witness :
  let p1 := shot_path Mock.remote MockFaults.at_9998 None in
  let p2 := shot_path Mock.remote MockFaults.at_9999 None in
  name p1 = "9999_20261103_143305_123_action.png" /\
  name p2 = "10000_20261103_143305_123_action.png" /\
  sequence_number p1 = Some (N.to_nat 9999) /\
  sequence_number p2 = Some (N.to_nat 10000) /\
  String.compare (name p2) (name p1) = Lt.
Proof.
  intros p1 p2.
  split; [vm_compute; reflexivity|]. split; [vm_compute; reflexivity|].
  apply (name_10000_sorts_before_9999 Mock.remote None None
           MockFaults.at_9998 MockFaults.at_9999 p1 p2 eq_refl eq_refl).
  - vm_compute. reflexivity.
  - vm_compute. reflexivity.
Defined.

(** A search box found under the label [q], and one found under the empty
    label: the snapshot of typing [secret] is named after [q] for the
    first, after the keys for the second. *)
Lemma element_snapshots_carry_lookup_label_witness :
  let found := find_element Mock.remote "#q" (Some "q") (Mock.fresh [] []) in
  let blank := find_element Mock.remote "#q" (Some "") (Mock.fresh [] []) in
  fst found = Ok (mkWrapped "#q" (Some "q")) /\
  map name
    (history (self (snd (send_keys Mock.remote (mkWrapped "#q" (Some "q"))
                           ["secret"] (snd found)))))
  = [ "0001_20261103_143305_123_q.png";
      "0002_20261103_143305_373_q.png" ] /\
  fst blank = Ok (mkWrapped "#q" (Some "")) /\
  map name
    (history (self (snd (send_keys Mock.remote (mkWrapped "#q" (Some ""))
                           ["secret"] (snd blank)))))
  = [ "0001_20261103_143305_123_before_find_element.png";
      "0002_20261103_143305_373_before_send_keys_secret.png" ].
Proof.
  intros found blank. split; [vm_compute; reflexivity|]. split.
  - destruct (element_snapshots_carry_lookup_label Mock.remote "#q"
                (Some "q") (Mock.fresh [] []) (snd found)
                (mkWrapped "#q" (Some "q")))
      as (_ & H1 & H2 & _); [vm_compute; reflexivity|].
    destruct (H2 "q"%char ""%string eq_refl) as (_ & H3).
    destruct (H3 ["secret"] (snd found)) as (_ & H4 & _);
      [vm_compute; reflexivity|].
    rewrite H4, H1. vm_compute. reflexivity.
  - split; [vm_compute; reflexivity|].
    destruct (element_snapshots_carry_lookup_label Mock.remote "#q"
                (Some "") (Mock.fresh [] []) (snd blank)
                (mkWrapped "#q" (Some "")))
      as (_ & H1 & _ & H2); [vm_compute; reflexivity|].
    destruct (H2 (or_intror eq_refl)) as (_ & H3).
    destruct (H3 ["secret"] (snd blank)) as (H4 & _);
      [vm_compute; reflexivity|].
    rewrite H4, H1. vm_compute. reflexivity.
Defined.

(** [main] on a session and a reader that answer every call: five
    snapshots, five annotated images. *)
Lemma main_annotates_each_readable_snapshot_witness :
  result (MockMain.run MockMain.argv) = Ok tt /\
  option_map (fun a => map fst (written (disk a)))
    (annotation (MockMain.run MockMain.argv))
  = Some
      [ "screenshots/annotated_"
        +:+ "0001_20261103_143305_123_before_get_https___en_wikipedia_org.png";
        "screenshots/annotated_0002_20261103_143305_373_search_input.png";
        "screenshots/annotated_0003_20261103_143305_623_search_input.png";
        "screenshots/annotated_0004_20261103_143305_873_search_input.png";
        "screenshots/annotated_0005_20261103_143306_123_before_quit.png" ].
Proof.
  unfold MockMain.run.
  assert (Hp : proxy (main Mock.remote MockMain.browser MockMain.browser
                        (fun msg => msg) MockMain.reader (fun v => v)
                        MockMain.files_of MockMain.argv)
               = Some (snd (session Mock.remote (fun v => v) "Napoleon"
                              (Mock.fresh [] []))))
    by (vm_compute; reflexivity).
  assert (Ha : match annotation
                       (main Mock.remote MockMain.browser MockMain.browser
                          (fun msg => msg) MockMain.reader (fun v => v)
                          MockMain.files_of MockMain.argv)
               with Some _ => true | None => false end = true)
    by reflexivity.
  destruct (annotation _) as [a|] eqn:Ea; [clear Ha|discriminate Ha].
  destruct (main_annotates_each_readable_snapshot Mock.remote
              MockMain.browser MockMain.browser (fun msg => msg)
              MockMain.reader (fun v => v) MockMain.files_of MockMain.argv
              (fun _ => Ok [Shots.ok_box]) _ a eq_refl Hp Ea)
    as (T1 & _ & T3 & _).
  - intros p _ _. reflexivity.
  - split; [exact T1|]. cbn [option_map]. rewrite T3.
    vm_compute. reflexivity.
Defined.

(** [main] on a session whose lookup of the search box raises, and on a
    reader that cannot be created. *)
Lemma main_stops_before_annotation_witness :
  (annotation (MockFaults.run_flaky MockMain.argv) = None /\
   result (MockFaults.run_flaky MockMain.argv)
   = Raise "failed: find_element searchInput") /\
  MockFaults.run_no_reader MockMain.argv
  = mkEnded (Raise "no model") (Some (Mock.fresh [] [])) None.
Proof.
  split.
  - destruct (main_stops_before_annotation Mock.remote MockFaults.flaky
                MockFaults.flaky (fun msg => msg) MockMain.reader
                (fun v => v) MockMain.files_of MockMain.argv
                (Mock.world0 [] [false; true])
                (Mock.fresh [] [false; true]) eq_refl eq_refl)
      as (_ & T & _).
    destruct (T (fun _ => Ok [Shots.ok_box])
                "failed: find_element searchInput" eq_refl)
      as (T1 & _ & T3).
    + vm_compute. reflexivity.
    + split; [exact T1|]. unfold MockFaults.run_flaky. rewrite T3.
      vm_compute. reflexivity.
  - destruct (main_stops_before_annotation Mock.remote MockMain.browser
                MockMain.browser (fun msg => msg) MockFaults.no_reader
                (fun v => v) MockMain.files_of MockMain.argv
                (Mock.world0 [] []) (Mock.fresh [] []) eq_refl eq_refl)
      as (T & _).
    exact (proj1 (T "no model" eq_refl)).
Defined.

(** Three snapshots and a reader that raises on the third: the annotated
    image of the first one stays written. *)
Lemma reader_exception_stops_the_loop_witness :
  Shots.on_disk !! path_str Shots.third
  = Some (Cv2.mkImage "box clicked" []) /\
  MockFaults.broken_reader (path_str Shots.third) = Raise "ocr failed" /\
  let r := annotate MockFaults.broken_reader Shots.taken
             (mkAState (mkDisk Shots.on_disk []) []) in
  fst r = Raise "ocr failed" /\
  map fst (written (disk (snd r)))
  = [ "screenshots/annotated_"
      +:+ "0001_20261103_143305_123_before_get_https___example_test.png" ].
Proof.
  assert (L : Shots.on_disk !! path_str Shots.third
              = Some (Cv2.mkImage "box clicked" []))
    by (vm_compute; reflexivity).
  split; [exact L|]. split; [reflexivity|].
  assert (D : detects MockFaults.broken_reader Shots.on_disk
                [Shots.first; Shots.second]).
  { intros p Hp _. destruct Hp as [<-|[<-|[]]]; reflexivity. }
  pose proof (reader_exception_stops_the_loop MockFaults.broken_reader
                Shots.on_disk [] [Shots.first; Shots.second] []
                Shots.third (Cv2.mkImage "box clicked" []) "ocr failed"
                D shots_sources_kept L eq_refl) as T.
  cbv zeta. change ([Shots.first; Shots.second] ++ [Shots.third])%list
    with Shots.taken in T.
  rewrite T. split; [reflexivity|]. vm_compute. reflexivity.
Defined.
